(** * video-description-pipeline: the extraction streams and their handler

    A shallow embedding of the Go sources
      - [internal/streams] (Deepgram transcript stream, Gemini visual stream),
      - [internal/r2] (object-store client),
      - [internal/handler] (the [/extract] request handler),
    followed by the properties of the transcript segmentation, of the
    sequential visual-description loop and of the handler's gating.

    Conventions.
      - Go [float64] is [PrimFloat.float] (IEEE 754 binary64); Go's
        [a >= b] on floats is [(b <=? a)%float].
      - Go [string] is [string], a sequence of bytes; [+:+] appends strings
        and [++] appends lists.
      - Go [int] is [Z] (the values are only copied or printed).
      - A Go [error] is represented by its message ([err.Error()]);
        a nil error is [None].
      - A struct field keeps its Go name, with a prefix where two structs
        share it ([seg_Start], [w_Start], [u_Start]).
      - The network, the object store, the JSON codec and the formatting
        of floats are not part of the repository: they are the fields of
        the class [Platform], and code that calls them runs in the state
        monad [M] over the state of the outside world.

    Layout: the Go library functions, the sources file by file, the
    vocabulary of the statements with the data of the examples, then the
    properties. *)

From Stdlib Require Import PrimFloat.
From stdpp Require Import gmap strings list sorting.
From Stdlib Require Import ZArith Ascii String DecimalString List Lia Bool.

Set Warnings "-inexact-float".
Import ListNotations.

#[local] Open Scope string_scope.
#[local] Open Scope list_scope.

(* ===================================================================== *)
(** * Go library functions used by the sources *)
(* ===================================================================== *)

Module GoStrings.

(** [strings.Join(elems, sep)]. *)
Definition Join (elems : list string) (sep : string) : string :=
  String.concat sep elems.

(** The bytes of a string. *)
Definition bytes (s : string) : list ascii := list_ascii_of_string s.

Definition code (c : ascii) : N := N_of_ascii c.

(** The ASCII white space of [unicode.IsSpace]:
  ['\t'], ['\n'], ['\v'], ['\f'], ['\r'] and [' ']. *)
Definition asciiSpace (c : ascii) : bool :=
  ((9 <=? code c)%N && (code c <=? 13)%N) || (code c =? 32)%N.

(** The two-byte UTF-8 encodings of white space: U+0085 and U+00A0. *)
Definition space2 (c d : ascii) : bool :=
  (code c =? 0xC2)%N && ((code d =? 0x85)%N || (code d =? 0xA0)%N).

(** The three-byte UTF-8 encodings of white space: U+1680,
  U+2000..U+200A, U+2028, U+2029, U+202F, U+205F and U+3000. *)
Definition space3 (c d e : ascii) : bool :=
  ((code c =? 0xE1)%N && (code d =? 0x9A)%N && (code e =? 0x80)%N)
  || ((code c =? 0xE2)%N && (code d =? 0x80)%N
      && (((0x80 <=? code e)%N && (code e <=? 0x8A)%N)
          || (code e =? 0xA8)%N || (code e =? 0xA9)%N || (code e =? 0xAF)%N))
  || ((code c =? 0xE2)%N && (code d =? 0x81)%N && (code e =? 0x9F)%N)
  || ((code c =? 0xE3)%N && (code d =? 0x80)%N && (code e =? 0x80)%N).

Section Trim.
(** The scan is written once for both ends: [sp2] and [sp3] recognise a
    two-byte and a three-byte white-space rune in the order in which the
    bytes are met. *)
Variable sp2 : ascii -> ascii -> bool.
Variable sp3 : ascii -> ascii -> ascii -> bool.

(** Number of bytes of the white-space rune the byte sequence starts
    with, [0] when it starts with none. *)
Definition spaceLen (s : list ascii) : nat :=
  match s with
  | [] => 0
  | c :: s1 =>
      if asciiSpace c then 1 else
      match s1 with
      | [] => 0
      | d :: s2 =>
          if sp2 c d then 2 else
          match s2 with
          | [] => 0
          | e :: _ => if sp3 c d e then 3 else 0
          end
      end
  end.

(** Drop white-space runes while the sequence starts with one. *)
Fixpoint trimFront (s : list ascii) : list ascii :=
  match s with
  | [] => []
  | c :: s1 =>
      if asciiSpace c then trimFront s1 else
      match s1 with
      | [] => s
      | d :: s2 =>
          if sp2 c d then trimFront s2 else
          match s2 with
          | [] => s
          | e :: s3 => if sp3 c d e then trimFront s3 else s
          end
      end
  end.
End Trim.

Definition leadSpace (s : list ascii) : nat := spaceLen space2 space3 s.

(** The same scan from the end, on the reversed bytes. *)
Definition space2r (c d : ascii) : bool := space2 d c.
Definition space3r (c d e : ascii) : bool := space3 e d c.
Definition trailSpace (s : list ascii) : nat :=
  spaceLen space2r space3r (rev s).

Definition TrimLeft (s : list ascii) : list ascii := trimFront space2 space3 s.
Definition TrimRight (s : list ascii) : list ascii :=
  rev (trimFront space2r space3r (rev s)).

(** [strings.TrimSpace(s)]: [s] without its leading and trailing white
  space, as defined by Unicode. *)
Definition TrimSpace (s : string) : string :=
  string_of_list_ascii (TrimRight (TrimLeft (bytes s))).

(** A string is trimmed when it neither starts nor ends with a
  white-space rune. *)
Definition trimmed (s : string) : Prop :=
  leadSpace (bytes s) = 0 /\ trailSpace (bytes s) = 0.

(** Go's [s != ""]. *)
Definition nonEmpty (s : string) : bool :=
  match s with EmptyString => false | String _ _ => true end.

End GoStrings.
Import GoStrings.

(* ===================================================================== *)
(** * internal/streams: the transcript stream (Deepgram) *)
(* ===================================================================== *)

Record ASRSegment := mkASRSegment {
  seg_Start : float;
  seg_End   : float;
  seg_Text  : string
}.

Record ASRResult := mkASRResult { Segments : list ASRSegment }.

Record wordEntry := mkWord {
  w_Word  : string;
  w_Start : float;
  w_End   : float
}.

(** The zero value of [wordEntry]. *)
Definition wordEntry_zero : wordEntry := mkWord "" 0%float 0%float.

(** State of the loop of [groupWordsIntoChunks]. *)
Record chunkState := mkChunkState {
  cs_segments   : list ASRSegment;
  cs_chunk      : list string;
  cs_chunkStart : float;
  cs_started    : bool
}.

Definition chunkState_init : chunkState := mkChunkState [] [] 0%float false.

(** One iteration of [for _, w := range words]. *)
Definition chunk_step (chunkDuration : float) (st : chunkState) (w : wordEntry)
  : chunkState :=
  let chunkStart := if cs_started st then cs_chunkStart st else w_Start w in
  let chunk := cs_chunk st ++ [w_Word w] in
  if (chunkDuration <=? w_End w - chunkStart)%float
  then mkChunkState
         (cs_segments st ++ [mkASRSegment chunkStart (w_End w) (Join chunk " ")])
         [] chunkStart false
  else mkChunkState (cs_segments st) chunk chunkStart true.

Definition chunk_loop (chunkDuration : float) (words : list wordEntry)
  : chunkState :=
  fold_left (chunk_step chunkDuration) words chunkState_init.

(** The final [if len(chunk) > 0 && len(words) > 0] of
    [groupWordsIntoChunks]. *)
Definition chunk_flush (words : list wordEntry) (st : chunkState)
  : list ASRSegment :=
  if (0 <? length (cs_chunk st))%nat && (0 <? length words)%nat
  then cs_segments st
       ++ [mkASRSegment (cs_chunkStart st)
                        (w_End (List.last words wordEntry_zero))
                        (Join (cs_chunk st) " ")]
  else cs_segments st.

Definition groupWordsIntoChunks (words : list wordEntry) (chunkDuration : float)
  : list ASRSegment :=
  chunk_flush words (chunk_loop chunkDuration words).

(** The relevant parts of Deepgram's response, as [json] decodes them. *)
Record utterance := mkUtterance {
  u_Start      : float;
  u_End        : float;
  u_Transcript : string
}.

Record alternative := mkAlternative { Words : list wordEntry }.

Record channel := mkChannel { Alternatives : list alternative }.

Record deepgramResults := mkResults {
  Utterances : list utterance;
  Channels   : list channel
}.

Record deepgramResponse := mkDeepgramResponse { Results : deepgramResults }.

(** One iteration of [for _, u := range dgResp.Results.Utterances]. *)
Definition utterance_step (segments : list ASRSegment) (u : utterance)
  : list ASRSegment :=
  let text := TrimSpace (u_Transcript u) in
  if nonEmpty text
  then segments ++ [mkASRSegment (u_Start u) (u_End u) text]
  else segments.

(** The primary path of [RunASR]: the segments after the loop over the
    utterances. *)
Definition utteranceSegments (dgResp : deepgramResponse) : list ASRSegment :=
  fold_left utterance_step (Utterances (Results dgResp)) [].

(** The fallback of [RunASR], applied to the segments of the primary path:
    [if len(result.Segments) == 0 && len(dgResp.Results.Channels) > 0]. *)
Definition wordFallback (dgResp : deepgramResponse) (segments : list ASRSegment)
  : list ASRSegment :=
  if (length segments =? 0)%nat
     && (0 <? length (Channels (Results dgResp)))%nat
  then match Channels (Results dgResp) with
       | [] => segments
       | c0 :: _ =>
           match Alternatives c0 with
           | [] => segments
           | a0 :: _ => groupWordsIntoChunks (Words a0) 3.0%float
           end
       end
  else segments.

(** The part of [RunASR] that follows the decoding of the response. *)
Definition segmentResponse (dgResp : deepgramResponse) : ASRResult :=
  mkASRResult (wordFallback dgResp (utteranceSegments dgResp)).

(* ===================================================================== *)
(** * internal/streams: the visual-description stream (Gemini), data *)
(* ===================================================================== *)

Record VLMFrame := mkVLMFrame {
  FrameIndex   : Z;
  TimestampSec : float;
  Description  : string
}.

Record VLMResult := mkVLMResult { Frames : list VLMFrame }.

Record KeyframeInput := mkKeyframeInput {
  kf_FrameIndex   : Z;
  kf_TimestampSec : float;
  kf_ImageBytes   : string
}.

Record geminiInline := mkGeminiInline { MimeType : string; Data : string }.

Record geminiPart := mkGeminiPart {
  part_Text  : string;
  InlineData : option geminiInline
}.

Record geminiContent := mkGeminiContent { Parts : list geminiPart }.

Record geminiRequest := mkGeminiRequest { Contents : list geminiContent }.

(** A candidate of the response, reduced to [Content.Parts[i].Text]. *)
Record geminiCandidate := mkGeminiCandidate { cand_Parts : list string }.

Record geminiResponse := mkGeminiResponse {
  Candidates : list geminiCandidate;
  gr_Error   : option string          (* [Error.Message], [None] for nil *)
}.

(* ===================================================================== *)
(** * The outside world: net/http, S3, encoding/json, fmt *)
(* ===================================================================== *)

(** A Go [error], by its message. *)
Definition error := string.

(** What reading a body to its end gives: the bytes read and the error
    that stopped the reading, if any. *)
Record Body := mkBody { body_data : string; body_err : option error }.

Record Request := mkRequest {
  req_Method : string;
  req_URL    : string;
  req_Header : list (string * string);
  req_Body   : string
}.

Record Response := mkResponse { StatusCode : Z; resp_Body : Body }.

Definition StatusOK : Z := 200.
Definition StatusBadRequest : Z := 400.
Definition StatusMethodNotAllowed : Z := 405.
Definition StatusInternalServerError : Z := 500.

(** [req.Header.Set(key, value)]. *)
Definition Header_Set (req : Request) (key value : string) : Request :=
  mkRequest (req_Method req) (req_URL req)
            ((key, value) :: List.filter (fun kv => negb (String.eqb (fst kv) key))
                                         (req_Header req))
            (req_Body req).

(** [fmt]'s [%d]. *)
Definition itoa (n : Z) : string :=
  DecimalString.NilZero.string_of_int (Z.to_int n).

(** internal/r2 *)
Record KeyframeMeta := mkKeyframeMeta {
  km_Index        : Z;
  km_FrameNumber  : Z;
  km_TimestampSec : float;
  km_EntropyScore : float;
  km_R2Key        : string
}.

(** [Keyframes] is a slice: [None] is the nil slice. *)
Record KeyframeMetadataFile := mkKeyframeMetadataFile {
  Keyframes : option (list KeyframeMeta)
}.

Record Client := mkClient { bucket : string }.

(** internal/config *)
Record Config := mkConfig {
  R2EndpointURL     : string;
  R2AccessKeyID     : string;
  R2SecretAccessKey : string;
  R2Bucket          : string;
  DeepgramAPIKey    : string;
  GeminiAPIKey      : string;
  Port              : string
}.

(** internal/handler *)
Record extractRequest := mkExtractRequest { AdID : string }.

Record streamResult := mkStreamResult {
  sr_Stream      : string;
  sr_Status      : string;         (* "success" | "error" | "skipped" *)
  sr_ResultCount : Z;
  sr_R2Key       : string;
  sr_Error       : string
}.

(** A value handed to [UploadJSON]. *)
Inductive uploadValue :=
| UploadASR (r : ASRResult)
| UploadVLM (r : VLMResult).

(** The libraries and services the sources call.  [World] is the state of
    everything outside the process (the two providers, the object store,
    the request context with its deadline). *)
Class Platform := {
  World : Type;
  (** [net/http]: the error of [http.NewRequestWithContext] for a URL, and
      [http.DefaultClient.Do]. *)
  url_error : string -> option error;
  http_Do : Request -> World -> (error + Response) * World;
  (** [encoding/json] *)
  decode_deepgramResponse : Body -> error + deepgramResponse;
  marshal_geminiRequest : geminiRequest -> error + string;
  unmarshal_geminiResponse : string -> error + geminiResponse;
  decode_KeyframeMetadataFile : Body -> error + KeyframeMetadataFile;
  decode_extractRequest : Body -> error + extractRequest;
  marshal_upload : uploadValue -> error + string;
  (** [encoding/base64] and [fmt]'s [%.1f] *)
  base64_EncodeToString : string -> string;
  format_f1 : float -> string;
  (** S3: [GetObject bucket key] and [PutObject bucket key body contentType] *)
  s3_GetObject : string -> string -> World -> (error + Body) * World;
  s3_PutObject : string -> string -> string -> string -> World
                 -> option error * World
}.

(** Computations that act on the world. *)
Definition M `{Platform} (A : Type) : Type := World -> A * World.

Definition ret `{Platform} {A : Type} (a : A) : M A := fun w => (a, w).

Definition bind `{Platform} {A B : Type} (m : M A) (k : A -> M B) : M B :=
  fun w => let (a, w') := m w in k a w'.

Notation "'do' x <- m ; k" := (bind m (fun x => k))
  (at level 10, x name, m at level 100, k at level 200).

(** [http.NewRequestWithContext(ctx, method, url, bytes.NewReader(body))]. *)
Definition NewRequestWithContext `{Platform} (method url body : string)
  : error + Request :=
  match url_error url with
  | Some err => inl err
  | None => inr (mkRequest method url [] body)
  end.

(* ===================================================================== *)
(** * internal/streams: RunASR *)
(* ===================================================================== *)

Section Pipeline.
Context `{Platform}.

(** [deepgramBaseURL] and [geminiBaseURL] are package variables that the
    tests override. *)
Variable deepgramBaseURL : string.
Variable geminiBaseURL : string.

(** Go returns a pointer to the result and an error: both components are
    kept, [None] being nil. *)
Definition deepgramListenURL : string :=
  deepgramBaseURL
  +:+ "/v1/listen?model=nova-3&smart_format=true&utterances=true&punctuate=true".

Definition RunASR (videoBytes apiKey : string)
  : M (option ASRResult * option error) :=
  let url := deepgramListenURL in
  match NewRequestWithContext "POST" url videoBytes with
  | inl err => ret (None, Some ("create request: " +:+ err))
  | inr req =>
      let req := Header_Set req "Authorization" ("Token " +:+ apiKey) in
      let req := Header_Set req "Content-Type" "video/mp4" in
      do r <- http_Do req;
      match r with
      | inl err => ret (None, Some ("deepgram request: " +:+ err))
      | inr resp =>
          if negb (StatusCode resp =? StatusOK)%Z
          then
            (* body, _ := io.ReadAll(resp.Body) *)
            let body := body_data (resp_Body resp) in
            ret (None, Some ("deepgram returned " +:+ itoa (StatusCode resp)
                             +:+ ": " +:+ body))
          else
            match decode_deepgramResponse (resp_Body resp) with
            | inl err => ret (None, Some ("decode response: " +:+ err))
            | inr dgResp => ret (Some (segmentResponse dgResp), None)
            end
      end
  end.

(* ===================================================================== *)
(** * internal/streams: callGemini and RunVLM *)
(* ===================================================================== *)

Definition nl : string := String "010"%char EmptyString.

(** [fmt.Sprintf(vlmPromptTemplate, prevDesc, timestampSec)]. *)
Definition vlmPrompt (prevDesc : string) (timestampSec : float) : string :=
  "Analyze this frame from a video advertisement." +:+ nl
  +:+ "Previous frame context: " +:+ prevDesc +:+ nl
  +:+ "Timestamp: " +:+ format_f1 timestampSec +:+ "s" +:+ nl
  +:+ nl
  +:+ "Describe in 2-3 sentences covering:" +:+ nl
  +:+ "1. What is happening visually (people, product, setting, action)" +:+ nl
  +:+ "2. Camera movement and shot type (close-up, wide shot, zoom in, pan, cut, handheld shake, tracking)" +:+ nl
  +:+ "3. Emotional tone, color palette, pacing feel" +:+ nl
  +:+ "4. Any motion blur, fast cuts, slow motion, or speed ramp effects" +:+ nl
  +:+ nl
  +:+ "Be specific and concrete. Use explicit motion vocabulary: cut, zoom, pan, handheld, slow motion, fast cut, tracking shot, static shot, dolly, whip pan.".

(** [fmt.Sprintf("%s/v1beta/models/gemini-2.0-flash:generateContent?key=%s",
    geminiBaseURL, apiKey)]. *)
Definition geminiGenerateURL (apiKey : string) : string :=
  geminiBaseURL
  +:+ "/v1beta/models/gemini-2.0-flash:generateContent?key=" +:+ apiKey.

Definition callGemini (apiKey imageBytes prompt : string)
  : M (string * option error) :=
  let url := geminiGenerateURL apiKey in
  let reqBody :=
    mkGeminiRequest
      [ mkGeminiContent
          [ mkGeminiPart prompt None;
            mkGeminiPart ""
              (Some (mkGeminiInline "image/jpeg"
                                    (base64_EncodeToString imageBytes))) ] ] in
  match marshal_geminiRequest reqBody with
  | inl err => ret ("", Some ("marshal request: " +:+ err))
  | inr bodyBytes =>
  match NewRequestWithContext "POST" url bodyBytes with
  | inl err => ret ("", Some ("create request: " +:+ err))
  | inr req =>
      let req := Header_Set req "Content-Type" "application/json" in
      do r <- http_Do req;
      match r with
      | inl err => ret ("", Some ("gemini request: " +:+ err))
      | inr resp =>
      match body_err (resp_Body resp) with
      | Some err => ret ("", Some ("read response: " +:+ err))
      | None =>
          let respBody := body_data (resp_Body resp) in
          if negb (StatusCode resp =? StatusOK)%Z
          then ret ("", Some ("gemini returned " +:+ itoa (StatusCode resp)
                              +:+ ": " +:+ respBody))
          else
            match unmarshal_geminiResponse respBody with
            | inl err => ret ("", Some ("decode response: " +:+ err))
            | inr gemResp =>
                match gr_Error gemResp with
                | Some message => ret ("", Some ("gemini error: " +:+ message))
                | None =>
                    match Candidates gemResp with
                    | [] => ret ("", Some "empty response from gemini")
                    | c0 :: _ =>
                        match cand_Parts c0 with
                        | [] => ret ("", Some "empty response from gemini")
                        | text :: _ => ret (TrimSpace text, None)
                        end
                    end
                end
            end
      end
      end
  end
  end.

(** One call of [callGemini] made by [RunVLM]: the world in which it was
    made, the prompt it was given and what it returned.  The list of calls
    is kept next to the loop state to state what each prompt was built
    from; the program does not read it. *)
Record vlmCall := mkVlmCall {
  call_world  : World;
  call_prompt : string;
  call_desc   : string;
  call_err    : option error
}.

(** State of the loop of [RunVLM]. *)
Record vlmState := mkVlmState {
  vs_frames   : list VLMFrame;
  vs_prevDesc : string;
  vs_calls    : list vlmCall
}.

Definition firstFrameContext : string := "This is the first frame of the ad.".

Definition vlmState_init : vlmState := mkVlmState [] firstFrameContext [].

Definition getWorld : M World := fun w => (w, w).

(** One iteration of [for _, kf := range keyframes]. *)
Definition vlm_step (apiKey : string) (st : vlmState) (kf : KeyframeInput)
  : M vlmState :=
  let prompt := vlmPrompt (vs_prevDesc st) (kf_TimestampSec kf) in
  do w0 <- getWorld;
  do r <- callGemini apiKey (kf_ImageBytes kf) prompt;
  let err := snd r in
  let desc := match err with
              | Some e => "[Error: " +:+ e +:+ "]"
              | None => fst r
              end in
  ret (mkVlmState
         (vs_frames st
          ++ [mkVLMFrame (kf_FrameIndex kf) (kf_TimestampSec kf) desc])
         (match err with None => desc | Some _ => vs_prevDesc st end)
         (vs_calls st ++ [mkVlmCall w0 prompt (fst r) err])).

Fixpoint vlm_loop (apiKey : string) (keyframes : list KeyframeInput)
  (st : vlmState) : M vlmState :=
  match keyframes with
  | [] => ret st
  | kf :: rest =>
      do st' <- vlm_step apiKey st kf;
      vlm_loop apiKey rest st'
  end.

Definition RunVLM (keyframes : list KeyframeInput) (apiKey : string)
  : M (option VLMResult * option error) :=
  do st <- vlm_loop apiKey keyframes vlmState_init;
  ret (Some (mkVLMResult (vs_frames st)), None).

(* ===================================================================== *)
(** * internal/r2: the object-store client *)
(* ===================================================================== *)

(** [DownloadVideo] ends with [return io.ReadAll(out.Body)]: the bytes read
    and the error of the read. *)
Definition DownloadVideo (c : Client) (adID : string)
  : M (string * option error) :=
  let key := "ads/" +:+ adID +:+ "/video.mp4" in
  do out <- s3_GetObject (bucket c) key;
  match out with
  | inl err => ret ("", Some ("download video " +:+ key +:+ ": " +:+ err))
  | inr body => ret (body_data body, body_err body)
  end.

(** The slice returned is [None] when it is nil. *)
Definition DownloadKeyframeMetadata (c : Client) (adID : string)
  : M (option (list KeyframeMeta) * option error) :=
  let key := "ads/" +:+ adID +:+ "/keyframes/metadata.json" in
  do out <- s3_GetObject (bucket c) key;
  match out with
  | inl err => ret (None, Some ("download metadata " +:+ key +:+ ": " +:+ err))
  | inr body =>
      match decode_KeyframeMetadataFile body with
      | inl err => ret (None, Some ("decode metadata: " +:+ err))
      | inr meta => ret (Keyframes meta, None)
      end
  end.

(** The loop of [DownloadKeyframeImages] over [metas], [images] being the
    map filled so far. *)
Fixpoint downloadImages_loop (c : Client) (metas : list KeyframeMeta)
  (images : gmap string string)
  : M (option (gmap string string) * option error) :=
  match metas with
  | [] => ret (Some images, None)
  | m :: rest =>
      do out <- s3_GetObject (bucket c) (km_R2Key m);
      match out with
      | inl err =>
          ret (None, Some ("download keyframe " +:+ km_R2Key m +:+ ": " +:+ err))
      | inr body =>
          match body_err body with
          | Some err =>
              ret (None, Some ("read keyframe " +:+ km_R2Key m +:+ ": " +:+ err))
          | None =>
              downloadImages_loop c rest (<[km_R2Key m := body_data body]> images)
          end
      end
  end.

Definition DownloadKeyframeImages (c : Client) (adID : string)
  (metas : list KeyframeMeta)
  : M (option (gmap string string) * option error) :=
  downloadImages_loop c metas ∅.

Definition UploadJSON (c : Client) (key : string) (data : uploadValue)
  : M (option error) :=
  match marshal_upload data with
  | inl err => ret (Some ("marshal json: " +:+ err))
  | inr body =>
      do e <- s3_PutObject (bucket c) key body "application/json";
      match e with
      | Some err => ret (Some ("upload " +:+ key +:+ ": " +:+ err))
      | None => ret None
      end
  end.

(* ===================================================================== *)
(** * internal/handler: the extraction request handler *)
(* ===================================================================== *)

Record ExtractHandler := mkExtractHandler { cfg : Config; r2 : Client }.

(** The request, as far as [ServeHTTP] reads it. *)
Record HTTPRequest := mkHTTPRequest { hr_Method : string; hr_Body : Body }.

Definition runASR (h : ExtractHandler) (adID videoBytes : string)
  : M streamResult :=
  do r <- RunASR videoBytes (DeepgramAPIKey (cfg h));
  match r with
  | (_, Some err) => ret (mkStreamResult "asr" "error" 0 "" err)
  | (None, None) =>
      (* not reached: [RunASR] returns a result whenever its error is nil *)
      ret (mkStreamResult "asr" "error" 0 "" "")
  | (Some asrResult, None) =>
      let r2Key := "ads/" +:+ adID +:+ "/extraction/asr_results.json" in
      do e <- UploadJSON (r2 h) r2Key (UploadASR asrResult);
      match e with
      | Some err => ret (mkStreamResult "asr" "error" 0 "" err)
      | None =>
          ret (mkStreamResult "asr" "success"
                 (Z.of_nat (length (Segments asrResult))) r2Key "")
      end
  end.

Definition runVLM (h : ExtractHandler) (adID : string)
  (keyframes : list KeyframeInput) : M streamResult :=
  do r <- RunVLM keyframes (GeminiAPIKey (cfg h));
  match r with
  | (_, Some err) => ret (mkStreamResult "vlm" "error" 0 "" err)
  | (None, None) =>
      (* not reached: [RunVLM] always returns a result *)
      ret (mkStreamResult "vlm" "error" 0 "" "")
  | (Some vlmResult, None) =>
      let r2Key := "ads/" +:+ adID +:+ "/extraction/vlm_results.json" in
      do e <- UploadJSON (r2 h) r2Key (UploadVLM vlmResult);
      match e with
      | Some err => ret (mkStreamResult "vlm" "error" 0 "" err)
      | None =>
          ret (mkStreamResult "vlm" "success"
                 (Z.of_nat (length (Frames vlmResult))) r2Key "")
      end
  end.

(** The loop of [ServeHTTP] that pairs each keyframe with its image. *)
Definition keyframeInputs_step (images : gmap string string)
  (keyframeInputs : list KeyframeInput) (m : KeyframeMeta)
  : list KeyframeInput :=
  match images !! km_R2Key m with
  | Some imgBytes =>
      keyframeInputs
      ++ [mkKeyframeInput (km_Index m) (km_TimestampSec m) imgBytes]
  | None => keyframeInputs
  end.

(** A stream launched by [ServeHTTP] with [go func() { ... }()]. *)
Inductive goroutine :=
| GoRunASR (adID videoBytes : string)
| GoRunVLM (adID : string) (keyframes : list KeyframeInput).

(** What a launched goroutine computes before it appends to [results]. *)
Definition goroutine_run (h : ExtractHandler) (g : goroutine) : M streamResult :=
  match g with
  | GoRunASR adID videoBytes => runASR h adID videoBytes
  | GoRunVLM adID keyframes => runVLM h adID keyframes
  end.

(** [ServeHTTP] up to [wg.Wait()]: either the request was refused with
    [http.Error(w, msg, code)], or the streams were dispatched.  [log] are
    the warnings written, [results] the stream results appended by
    [ServeHTTP] itself (the skipped streams), [launched] the goroutines
    started, in the order in which they were started. *)
Inductive served :=
| HttpError (msg : string) (code : Z)
| Dispatched (log : list string) (results : list streamResult)
             (launched : list goroutine).

Definition ServeHTTP (h : ExtractHandler) (req : HTTPRequest) : M served :=
  if negb (String.eqb (hr_Method req) "POST")
  then ret (HttpError "method not allowed" StatusMethodNotAllowed)
  else
  match decode_extractRequest (hr_Body req) with
  | inl _ => ret (HttpError "invalid request body" StatusBadRequest)
  | inr body =>
  if String.eqb (AdID body) ""
  then ret (HttpError "ad_id is required" StatusBadRequest)
  else
  (* Download video bytes from R2 (needed for Deepgram) *)
  do v <- DownloadVideo (r2 h) (AdID body);
  match snd v with
  | Some err =>
      ret (HttpError ("download video: " +:+ err) StatusInternalServerError)
  | None =>
  let videoBytes := fst v in
  (* Download keyframe metadata (needed for VLM) *)
  do km <- DownloadKeyframeMetadata (r2 h) (AdID body);
  let keyframeMetas := match snd km with Some _ => None | None => fst km end in
  let log1 :=
    match snd km with
    | Some err => ["WARN: no keyframe metadata for " +:+ AdID body +:+ ": "
                   +:+ err +:+ " (VLM will be skipped)"]
    | None => []
    end in
  (* Download keyframe images for VLM *)
  do ki <- match keyframeMetas with
           | None => ret ([], [])
           | Some metas =>
               do im <- DownloadKeyframeImages (r2 h) (AdID body) metas;
               match im with
               | (_, Some err) =>
                   ret ([], ["WARN: failed to download keyframe images for "
                             +:+ AdID body +:+ ": " +:+ err])
               | (None, None) =>
                   (* a nil map has no entry *)
                   ret ([], [])
               | (Some images, None) =>
                   ret (fold_left (keyframeInputs_step images) metas [], [])
               end
           end;
  let keyframeInputs : list KeyframeInput := fst ki in
  let log2 : list string := snd ki in
  (* ASR stream (Deepgram): starts immediately, only needs video bytes *)
  let asr : list streamResult * list goroutine :=
    if nonEmpty (DeepgramAPIKey (cfg h))
    then ([], [GoRunASR (AdID body) videoBytes])
    else ([mkStreamResult "asr" "skipped" 0 ""
                          "DEEPGRAM_API_KEY not configured"], []) in
  (* VLM stream (Gemini): needs keyframe images *)
  let vlm : list streamResult * list goroutine :=
    if nonEmpty (GeminiAPIKey (cfg h)) && (0 <? length keyframeInputs)%nat
    then ([], [GoRunVLM (AdID body) keyframeInputs])
    else
      let reason :=
        if (length keyframeInputs =? 0)%nat
        then "no keyframe images available"
        else "GEMINI_API_KEY not configured" in
      ([mkStreamResult "vlm" "skipped" 0 "" reason], []) in
  ret (Dispatched (log1 ++ log2) (fst asr ++ fst vlm) (snd asr ++ snd vlm))
  end
  end.

End Pipeline.

(* ===================================================================== *)
(** * Vocabulary of the statements *)
(* ===================================================================== *)

(** The segment that the chunker emits for a group of consecutive words:
    it starts with the first word, ends with the last one and carries the
    tokens joined by single spaces. *)
Definition seg_of_group (g : list wordEntry) : ASRSegment :=
  mkASRSegment (w_Start (hd wordEntry_zero g))
               (w_End (List.last g wordEntry_zero))
               (Join (map w_Word g) " ").

(** The state of the chunker's loop after the words [concat groups ++ cur]:
    [groups] are the chunks already flushed, [cur] the words of the open
    chunk. *)
Definition chunk_inv (st : chunkState) (groups : list (list wordEntry))
  (cur : list wordEntry) : Prop :=
  cs_segments st = map seg_of_group groups
  /\ Forall (fun g => g <> []) groups
  /\ cs_chunk st = map w_Word cur
  /\ match cur with
     | [] => cs_started st = false
     | w :: _ => cs_started st = true /\ cs_chunkStart st = w_Start w
     end.

(** The words of [TestGroupWordsIntoChunks_BasicChunking]. *)
Definition basicChunkingWords : list wordEntry :=
  [ mkWord "Hello" 0.0 0.5; mkWord "world" 0.6 1.0; mkWord "this" 1.1 1.5;
    mkWord "is" 1.6 2.0; mkWord "a" 3.0 3.2; mkWord "test" 3.3 3.5 ]%float.

(** A word list whose only word has an empty token. *)
Definition emptyTokenWords : list wordEntry := [ mkWord "" 0.0 0.5 ]%float.

(** The segment of the primary path for an utterance. *)
Definition seg_of_utterance (u : utterance) : ASRSegment :=
  mkASRSegment (u_Start u) (u_End u) (TrimSpace (u_Transcript u)).

(** The utterance has non-blank text: its trimmed transcript is not empty. *)
Definition nonBlank (u : utterance) : bool :=
  nonEmpty (TrimSpace (u_Transcript u)).

(** The words the fallback reads: [Channels[0].Alternatives[0].Words], when
    they exist. *)
Definition fallbackWords (dgResp : deepgramResponse) : list wordEntry :=
  match Channels (Results dgResp) with
  | [] => []
  | c0 :: _ =>
      match Alternatives c0 with
      | [] => []
      | a0 :: _ => Words a0
      end
  end.

(** No word ends before it starts, nor before a word placed earlier in the
    list starts. *)
Fixpoint orderedb (words : list wordEntry) : bool :=
  match words with
  | [] => true
  | w :: rest =>
      forallb (fun w' => (w_Start w <=? w_End w')%float) (w :: rest)
      && orderedb rest
  end.

(** The invariant of [Segment]: [end >= start], and a text that is not
    empty and has no white space at either end. *)
Definition segment_ok (s : ASRSegment) : Prop :=
  (seg_Start s <=? seg_End s)%float = true
  /\ seg_Text s <> ""
  /\ trimmed (seg_Text s).

(** The response of [TestRunASR_Utterances]. *)
Definition utterancesResponse : deepgramResponse :=
  mkDeepgramResponse
    (mkResults [ mkUtterance 0.0 2.5 "Hello world";
                 mkUtterance 3.0 5.0 "  Buy now  ";
                 mkUtterance 6.0 7.0 "   " ]%float
               []).

(** The response of [TestRunASR_FallbackToWords]. *)
Definition wordsResponse : deepgramResponse :=
  mkDeepgramResponse
    (mkResults []
       [ mkChannel
           [ mkAlternative
               [ mkWord "Buy" 0.0 0.5; mkWord "this" 0.6 1.0;
                 mkWord "product" 1.5 2.0; mkWord "now" 4.0 4.5;
                 mkWord "and" 5.0 5.2; mkWord "save" 5.5 6.0 ]%float ] ]).

(** A decodable response whose only utterance ends before it starts. *)
Definition backwardsResponse : deepgramResponse :=
  mkDeepgramResponse (mkResults [ mkUtterance 5.0 1.0 "hi" ]%float []).

(** A decodable response without utterances whose only word has a token
    made of one space. *)
Definition blankTokenResponse : deepgramResponse :=
  mkDeepgramResponse
    (mkResults [] [ mkChannel [ mkAlternative [ mkWord " " 0.0 0.5 ]%float ] ]).

(** The request [RunASR] hands to [http.DefaultClient.Do]. *)
Definition asrRequest (deepgramBaseURL videoBytes apiKey : string) : Request :=
  mkRequest "POST" (deepgramListenURL deepgramBaseURL)
            [ ("Content-Type", "video/mp4");
              ("Authorization", "Token " +:+ apiKey) ]
            videoBytes.

(** The request [callGemini] hands to [http.DefaultClient.Do], [bodyBytes]
    being the marshalled [geminiRequest]. *)
Definition geminiHTTPRequest (geminiBaseURL apiKey bodyBytes : string)
  : Request :=
  mkRequest "POST" (geminiGenerateURL geminiBaseURL apiKey)
            [ ("Content-Type", "application/json") ]
            bodyBytes.

(** The body [callGemini] marshals for a prompt and an image. *)
Definition geminiBody `{Platform} (imageBytes prompt : string) : geminiRequest :=
  mkGeminiRequest
    [ mkGeminiContent
        [ mkGeminiPart prompt None;
          mkGeminiPart ""
            (Some (mkGeminiInline "image/jpeg"
                                  (base64_EncodeToString imageBytes))) ] ].

(** A scripted world for the examples.  [http.DefaultClient.Do] answers
    with the head of [sw_http], whatever the request; the object store
    holds [sw_objects]; the JSON codecs are toy ones. *)
Record ScriptWorld := mkScriptWorld {
  sw_http    : list (error + Response);
  sw_objects : list (string * Body)
}.

Fixpoint assoc (key : string) (kvs : list (string * Body)) : option Body :=
  match kvs with
  | [] => None
  | (k, v) :: rest => if String.eqb k key then Some v else assoc key rest
  end.

Definition scriptPlatform : Platform := {|
  World := ScriptWorld;
  url_error := fun _ => None;
  http_Do := fun _ w =>
    match sw_http w with
    | [] => (inl "connection refused", w)
    | r :: rest => (r, mkScriptWorld rest (sw_objects w))
    end;
  decode_deepgramResponse := fun b =>
    match body_err b with
    | Some e => inl e
    | None =>
        if String.eqb (body_data b) "utterances" then inr utterancesResponse
        else if String.eqb (body_data b) "words" then inr wordsResponse
        else inl "invalid character"
    end;
  marshal_geminiRequest := fun _ => inr "{}";
  unmarshal_geminiResponse := fun s =>
    if String.eqb s "" then inl "unexpected end of JSON input"
    else if String.eqb s "{}" then inr (mkGeminiResponse [] None)
    else inr (mkGeminiResponse [mkGeminiCandidate [s]] None);
  decode_KeyframeMetadataFile := fun b =>
    match body_err b with
    | Some e => inl e
    | None =>
        inr (mkKeyframeMetadataFile
               (Some [ mkKeyframeMeta 0 0 0.0%float 1.0%float (body_data b) ]))
    end;
  decode_extractRequest := fun b => inr (mkExtractRequest (body_data b));
  marshal_upload := fun _ => inr "{}";
  base64_EncodeToString := fun s => s;
  format_f1 := fun _ => "0.0";
  s3_GetObject := fun _ key w =>
    match assoc key (sw_objects w) with
    | Some b => (inr b, w)
    | None => (inl "NoSuchKey", w)
    end;
  s3_PutObject := fun _ _ _ _ w => (None, w)
|}.

Definition okBody (data : string) : Body := mkBody data None.

(** The world of [TestRunASR_ServerError]. *)
Definition serverErrorWorld : ScriptWorld :=
  mkScriptWorld
    [ inr (mkResponse StatusInternalServerError (okBody "internal error")) ] [].

Section VLMVocabulary.
Context `{Platform}.

(** The description [RunVLM] stores for a call: the generated text, or the
    error of the call between brackets. *)
Definition describe (c : vlmCall) : string :=
  match call_err c with
  | Some e => "[Error: " +:+ e +:+ "]"
  | None => call_desc c
  end.

(** The description returned by the most recent successful call of a list
    of calls, or the initial context when no call succeeded. *)
Definition lastOK (calls : list vlmCall) : string :=
  fold_left (fun prev c => match call_err c with
                           | None => call_desc c
                           | Some _ => prev
                           end)
            calls firstFrameContext.

(** The ways in which the answer to the HTTP request makes [callGemini]
    fail, each with the message of the error. *)
Inductive providerFailure : error + Response -> error -> Prop :=
| TransportError (err : error) :
    providerFailure (inl err) ("gemini request: " +:+ err)
| ReadError (resp : Response) (err : error) :
    body_err (resp_Body resp) = Some err ->
    providerFailure (inr resp) ("read response: " +:+ err)
| NonOKStatus (resp : Response) :
    body_err (resp_Body resp) = None ->
    StatusCode resp <> StatusOK ->
    providerFailure (inr resp)
      ("gemini returned " +:+ itoa (StatusCode resp) +:+ ": "
       +:+ body_data (resp_Body resp))
| MalformedBody (resp : Response) (err : error) :
    body_err (resp_Body resp) = None ->
    StatusCode resp = StatusOK ->
    unmarshal_geminiResponse (body_data (resp_Body resp)) = inl err ->
    providerFailure (inr resp) ("decode response: " +:+ err)
| ErrorField (resp : Response) (gemResp : geminiResponse) (message : string) :
    body_err (resp_Body resp) = None ->
    StatusCode resp = StatusOK ->
    unmarshal_geminiResponse (body_data (resp_Body resp)) = inr gemResp ->
    gr_Error gemResp = Some message ->
    providerFailure (inr resp) ("gemini error: " +:+ message)
| EmptyContent (resp : Response) (gemResp : geminiResponse) :
    body_err (resp_Body resp) = None ->
    StatusCode resp = StatusOK ->
    unmarshal_geminiResponse (body_data (resp_Body resp)) = inr gemResp ->
    gr_Error gemResp = None ->
    (Candidates gemResp = []
     \/ exists c0 rest, Candidates gemResp = c0 :: rest /\ cand_Parts c0 = []) ->
    providerFailure (inr resp) "empty response from gemini".

(** The loop of [RunVLM] after the keyframes [kfs], for the package
    variable [geminiBaseURL] and the credential [apiKey]. *)
Definition vlm_inv (geminiBaseURL apiKey : string) (kfs : list KeyframeInput)
  (st : vlmState) : Prop :=
  length (vs_frames st) = length kfs
  /\ length (vs_calls st) = length kfs
  /\ vs_prevDesc st = lastOK (vs_calls st)
  /\ forall i kf c,
       kfs !! i = Some kf -> vs_calls st !! i = Some c ->
       call_prompt c
       = vlmPrompt (lastOK (take i (vs_calls st))) (kf_TimestampSec kf)
       /\ fst (callGemini geminiBaseURL apiKey (kf_ImageBytes kf)
                          (call_prompt c) (call_world c))
          = (call_desc c, call_err c)
       /\ vs_frames st !! i
          = Some (mkVLMFrame (kf_FrameIndex kf) (kf_TimestampSec kf)
                             (describe c)).

End VLMVocabulary.

(** The keyframes of [TestRunVLM_ErrorContinues] and its world: the first
    call is answered with status 500, the second with a description. *)
Definition twoKeyframes : list KeyframeInput :=
  [ mkKeyframeInput 0 0.0%float "img1"; mkKeyframeInput 3 1.5%float "img2" ].

Definition errorThenOKWorld : ScriptWorld :=
  mkScriptWorld
    [ inr (mkResponse StatusInternalServerError (okBody "server error"));
      inr (mkResponse StatusOK (okBody "Second frame OK")) ] [].

(** The goroutines launched by a served request. *)
Definition served_launched (s : served) : list goroutine :=
  match s with
  | HttpError _ _ => []
  | Dispatched _ _ launched => launched
  end.

Definition asrSkipped : streamResult :=
  mkStreamResult "asr" "skipped" 0 "" "DEEPGRAM_API_KEY not configured".

Definition vlmSkippedNoImages : streamResult :=
  mkStreamResult "vlm" "skipped" 0 "" "no keyframe images available".

(** What [ServeHTTP] decides for the transcript stream: it depends on the
    configured credential only. *)
Definition asrResults (h : ExtractHandler) : list streamResult :=
  if nonEmpty (DeepgramAPIKey (cfg h)) then [] else [asrSkipped].

Definition asrLaunched (h : ExtractHandler) (adID videoBytes : string)
  : list goroutine :=
  if nonEmpty (DeepgramAPIKey (cfg h)) then [GoRunASR adID videoBytes] else [].

(** A handler with both credentials, and a request for the ad "ad1" (the
    toy codec of [scriptPlatform] reads the body as the ad identifier and
    a metadata file as the key of its only keyframe). *)
Definition bothKeysHandler : ExtractHandler :=
  mkExtractHandler (mkConfig "" "" "" "entropy-frames" "dg-key" "gm-key" "8080")
                   (mkClient "entropy-frames").

Definition ad1Request : HTTPRequest := mkHTTPRequest "POST" (okBody "ad1").

Definition noVideoWorld : ScriptWorld := mkScriptWorld [] [].

Definition noMetadataWorld : ScriptWorld :=
  mkScriptWorld [] [ ("ads/ad1/video.mp4", okBody "video") ].

Definition noImageWorld : ScriptWorld :=
  mkScriptWorld []
    [ ("ads/ad1/video.mp4", okBody "video");
      ("ads/ad1/keyframes/metadata.json", okBody "ads/ad1/keyframes/0.jpg") ].

(* ===================================================================== *)
(** * internal/config and cmd/server *)
(* ===================================================================== *)

(** [os.Getenv(key)] in an environment that holds the variables that are
    set: the value of the variable, or the empty string. *)
Definition os_Getenv (env : gmap string string) (key : string) : string :=
  default "" (env !! key).

Definition getenv (env : gmap string string) (key fallback : string) : string :=
  let v := os_Getenv env key in
  if nonEmpty v then v else fallback.

Definition Load (env : gmap string string) : Config :=
  mkConfig (getenv env "R2_ENDPOINT_URL" "")
           (getenv env "R2_ACCESS_KEY_ID" "")
           (getenv env "R2_SECRET_ACCESS_KEY" "")
           (getenv env "R2_BUCKET" "entropy-frames")
           (getenv env "DEEPGRAM_API_KEY" "")
           (getenv env "GEMINI_API_KEY" "")
           (getenv env "PORT" "8080").

(** [r2.NewClient]: the endpoint and the credentials configure the S3
    client, which is part of the world; the client keeps the bucket. *)
Definition NewClient (endpointURL accessKeyID secretAccessKey bucket : string)
  : Client :=
  mkClient bucket.

Definition NewExtractHandler (cfg : Config) (r2Client : Client)
  : ExtractHandler :=
  mkExtractHandler cfg r2Client.

(** The body of the answer of [GET /health]. *)
Record healthResponse := mkHealthResponse {
  health_status   : string;
  health_deepgram : bool;
  health_vlm      : bool
}.

Definition health (cfg : Config) : healthResponse :=
  mkHealthResponse "ok"
                   (nonEmpty (DeepgramAPIKey cfg))
                   (nonEmpty (GeminiAPIKey cfg)).

(** The handler [main] mounts on [POST /extract], and the address it
    listens on. *)
Definition mainHandler (env : gmap string string) : ExtractHandler :=
  let cfg := Load env in
  let r2Client := NewClient (R2EndpointURL cfg) (R2AccessKeyID cfg)
                            (R2SecretAccessKey cfg) (R2Bucket cfg) in
  NewExtractHandler cfg r2Client.

Definition mainAddr (env : gmap string string) : string :=
  ":" +:+ Port (Load env).

(* ===================================================================== *)
(** * Vocabulary of the further statements *)
(* ===================================================================== *)

(** The span of a group reaches the chunk duration at its last word and
    at no earlier word. *)
Definition closes_at (D : float) (g : list wordEntry) : Prop :=
  (D <=? w_End (List.last g wordEntry_zero)
         - w_Start (hd wordEntry_zero g))%float = true
  /\ Forall (fun w => (D <=? w_End w - w_Start (hd wordEntry_zero g))%float
                      = false)
            (removelast g).

(** The span of a group reaches the chunk duration at none of its words. *)
Definition still_open (D : float) (g : list wordEntry) : Prop :=
  Forall (fun w => (D <=? w_End w - w_Start (hd wordEntry_zero g))%float
                   = false) g.

(** The segments of the groups already closed and of the group left open
    at the end of the input, if it has a word. *)
Definition segs_of_groups (groups : list (list wordEntry))
  (cur : list wordEntry) : list ASRSegment :=
  map seg_of_group groups
  ++ match cur with [] => [] | _ :: _ => [seg_of_group cur] end.

(** The stream of a launched goroutine, as [streamResult] names it. *)
Definition goroutine_stream (g : goroutine) : string :=
  match g with
  | GoRunASR _ _ => "asr"
  | GoRunVLM _ _ => "vlm"
  end.

(** A word list that closes a chunk at its last word, and one more word. *)
Definition boundaryWords : list wordEntry :=
  [ mkWord "a" 0.0 1.0; mkWord "b" 1.0 2.0; mkWord "c" 2.0 3.0 ]%float.

Definition afterBoundaryWords : list wordEntry :=
  [ mkWord "d" 3.5 4.0 ]%float.

(** A response whose utterances are all blank, with words to fall back on. *)
Definition blankUtterancesResponse : deepgramResponse :=
  mkDeepgramResponse
    (mkResults [ mkUtterance 0.0 1.0 "   "; mkUtterance 1.0 2.0 "" ]%float
               [ mkChannel
                   [ mkAlternative [ mkWord "Buy" 0.0 0.5;
                                     mkWord "now" 0.6 1.0 ]%float ] ]).

(** Worlds for the further examples: a transport failure, an answer that
    does not decode, and an answer with two candidates. *)
Definition transportErrorWorld : ScriptWorld :=
  mkScriptWorld [ inl "connection reset" ] [].

Definition garbageWorld : ScriptWorld :=
  mkScriptWorld [ inr (mkResponse StatusOK (okBody "garbage")) ] [].

(** [scriptPlatform] with a URL check that refuses every URL. *)
Definition badURLPlatform : Platform := {|
  World := ScriptWorld;
  url_error := fun _ => Some "invalid control character in URL";
  http_Do := @http_Do scriptPlatform;
  decode_deepgramResponse := @decode_deepgramResponse scriptPlatform;
  marshal_geminiRequest := @marshal_geminiRequest scriptPlatform;
  unmarshal_geminiResponse := @unmarshal_geminiResponse scriptPlatform;
  decode_KeyframeMetadataFile := @decode_KeyframeMetadataFile scriptPlatform;
  decode_extractRequest := @decode_extractRequest scriptPlatform;
  marshal_upload := @marshal_upload scriptPlatform;
  base64_EncodeToString := @base64_EncodeToString scriptPlatform;
  format_f1 := @format_f1 scriptPlatform;
  s3_GetObject := @s3_GetObject scriptPlatform;
  s3_PutObject := @s3_PutObject scriptPlatform
|}.

Section VLMThreading.
Context `{Platform}.

(** The calls [calls] are the calls of [callGemini] for the keyframes
    [kfs], one per keyframe and in order, the first one made in the world
    [w], each next one in the world the previous one left, and [w'] is the
    world the last one left. *)
Fixpoint threaded (geminiBaseURL apiKey : string) (w : World)
  (kfs : list KeyframeInput) (calls : list vlmCall) (w' : World) : Prop :=
  match kfs, calls with
  | [], [] => w' = w
  | kf :: kfs, c :: calls =>
      call_world c = w
      /\ fst (callGemini geminiBaseURL apiKey (kf_ImageBytes kf)
                         (call_prompt c) w)
         = (call_desc c, call_err c)
      /\ threaded geminiBaseURL apiKey
                  (snd (callGemini geminiBaseURL apiKey (kf_ImageBytes kf)
                                   (call_prompt c) w))
                  kfs calls w'
  | _, _ => False
  end.

End VLMThreading.

(** The world of [TestRunVLM_SequentialProcessing]: two descriptions. *)
Definition twoDescriptionsWorld : ScriptWorld :=
  mkScriptWorld
    [ inr (mkResponse StatusOK (okBody "  Frame one description "));
      inr (mkResponse StatusOK (okBody "Frame two description")) ] [].

(** A world in which both calls fail. *)
Definition twoFailuresWorld : ScriptWorld :=
  mkScriptWorld
    [ inr (mkResponse StatusInternalServerError (okBody "server error"));
      inl "connection reset" ] [].

(** [scriptPlatform] with a JSON encoder that refuses every request. *)
Definition noMarshalPlatform : Platform := {|
  World := ScriptWorld;
  url_error := @url_error scriptPlatform;
  http_Do := @http_Do scriptPlatform;
  decode_deepgramResponse := @decode_deepgramResponse scriptPlatform;
  marshal_geminiRequest := fun _ => inl "unsupported value";
  unmarshal_geminiResponse := @unmarshal_geminiResponse scriptPlatform;
  decode_KeyframeMetadataFile := @decode_KeyframeMetadataFile scriptPlatform;
  decode_extractRequest := @decode_extractRequest scriptPlatform;
  marshal_upload := fun _ => inl "unsupported value";
  base64_EncodeToString := @base64_EncodeToString scriptPlatform;
  format_f1 := @format_f1 scriptPlatform;
  s3_GetObject := @s3_GetObject scriptPlatform;
  s3_PutObject := @s3_PutObject scriptPlatform
|}.

(** The loop of [RunVLM] on [twoKeyframes] in a scripted world. *)
Definition scriptedLoop (w : ScriptWorld) : @vlmState scriptPlatform * ScriptWorld :=
  @vlm_loop scriptPlatform "http://gemini.test" "key" twoKeyframes
            (@vlmState_init scriptPlatform) w.

(** Two keyframes of the ad "ad1" and a store that holds the image of the
    first one only. *)
Definition twoMetas : list KeyframeMeta :=
  [ mkKeyframeMeta 0 0 0.0%float 1.0%float "ads/ad1/keyframes/0.jpg";
    mkKeyframeMeta 1 75 2.5%float 0.8%float "ads/ad1/keyframes/1.jpg" ].

Definition firstImageOnlyWorld : ScriptWorld :=
  mkScriptWorld [] [ ("ads/ad1/keyframes/0.jpg", okBody "jpeg0") ].

(** A store that holds the video, the metadata and the image of "ad1". *)
Definition allPresentWorld : ScriptWorld :=
  mkScriptWorld []
    [ ("ads/ad1/video.mp4", okBody "video");
      ("ads/ad1/keyframes/metadata.json", okBody "ads/ad1/keyframes/0.jpg");
      ("ads/ad1/keyframes/0.jpg", okBody "jpeg") ].

(** The skipped result of the visual stream, with its reason. *)
Definition vlmSkipped (reason : string) : streamResult :=
  mkStreamResult "vlm" "skipped" 0 "" reason.

(** What [ServeHTTP] decides for the visual stream, given the keyframes it
    could pair with an image. *)
Definition vlmResults (h : ExtractHandler) (keyframeInputs : list KeyframeInput)
  : list streamResult :=
  if nonEmpty (GeminiAPIKey (cfg h)) && (0 <? length keyframeInputs)%nat
  then []
  else [vlmSkipped (if (length keyframeInputs =? 0)%nat
                    then "no keyframe images available"
                    else "GEMINI_API_KEY not configured")].

Definition vlmLaunched (h : ExtractHandler) (adID : string)
  (keyframeInputs : list KeyframeInput) : list goroutine :=
  if nonEmpty (GeminiAPIKey (cfg h)) && (0 <? length keyframeInputs)%nat
  then [GoRunVLM adID keyframeInputs]
  else [].

(** The keyframe of a metadata entry, with its image taken from the map of
    the downloaded images. *)
Definition keyframe_of_meta (images : gmap string string) (m : KeyframeMeta)
  : KeyframeInput :=
  mkKeyframeInput (km_Index m) (km_TimestampSec m)
                  (default "" (images !! km_R2Key m)).

(** Environments for the examples: nothing set, and the Deepgram
    credential set to the empty string next to a Gemini credential. *)
Definition emptyDeepgramEnv : gmap string string :=
  <["DEEPGRAM_API_KEY" := ""]> (<["GEMINI_API_KEY" := "gm-key"]> ∅).

Definition getRequest : HTTPRequest := mkHTTPRequest "GET" (okBody "ad1").

Definition noAdRequest : HTTPRequest := mkHTTPRequest "POST" (okBody "").

(* ===================================================================== *)
(** * internal/r2: listing the keyframes *)
(* ===================================================================== *)

(** [strings.HasSuffix(s, suffix)]:
    [len(s) >= len(suffix) && s[len(s)-len(suffix):] == suffix]. *)
Definition HasSuffix (s suffix : string) : bool :=
  (String.length suffix <=? String.length s)%nat
  && String.eqb (substring (String.length s - String.length suffix)
                           (String.length suffix) s)
                suffix.

(** [sort.Strings(x)]: [x] in increasing order, strings being compared
    byte by byte. *)
Definition sort_Strings (x : list string) : list string :=
  merge_sort String.le x.

Section ListKeys.
Context `{Platform}.

(** S3's [ListObjectsV2 bucket prefix]: the keys of [out.Contents], or an
    error.  The call is made once: a truncated listing is not continued. *)
Variable s3_ListObjectsV2 :
  string -> string -> World -> (error + list string) * World.

(** One iteration of [for _, obj := range out.Contents]. *)
Definition listKeys_step (keys : list string) (key : string) : list string :=
  if HasSuffix key ".jpg" then keys ++ [key] else keys.

Definition ListKeyframeKeys (c : Client) (adID : string)
  : M (list string * option error) :=
  let prefix := "ads/" +:+ adID +:+ "/keyframes/" in
  do out <- s3_ListObjectsV2 (bucket c) prefix;
  match out with
  | inl err => ret ([], Some ("list keyframes: " +:+ err))
  | inr contents =>
      let keys := fold_left listKeys_step contents [] in
      ret (sort_Strings keys, None)
  end.

End ListKeys.

(** A listing of the scripted store: the keys under the prefix, in the
    order of the store. *)
Definition scriptList (bucket prefix : string) (w : ScriptWorld)
  : (error + list string) * ScriptWorld :=
  (inr (List.filter (fun key => String.prefix prefix key)
                    (map fst (sw_objects w))), w).

Definition keyframesWorld : ScriptWorld :=
  mkScriptWorld []
    [ ("ads/ad1/keyframes/1.jpg", okBody "jpeg1");
      ("ads/ad1/keyframes/metadata.json", okBody "{}");
      ("ads/ad1/keyframes/0.jpg", okBody "jpeg0");
      ("ads/ad1/video.mp4", okBody "video") ].

(** Three keyframes, and a world in which the three calls are answered
    with the status 200, the second answer carrying a text made of white
    space. *)
Definition threeKeyframes : list KeyframeInput :=
  [ mkKeyframeInput 0 0.0%float "img1"; mkKeyframeInput 1 2.5%float "img2";
    mkKeyframeInput 2 5.0%float "img3" ].

Definition blankSecondWorld : ScriptWorld :=
  mkScriptWorld
    [ inr (mkResponse StatusOK (okBody "Frame one description"));
      inr (mkResponse StatusOK (okBody "   "));
      inr (mkResponse StatusOK (okBody "Frame three")) ] [].

(* ===================================================================== *)
(** * Properties *)
(* ===================================================================== *)

(** ** Strings *)

Lemma append_cons (x : ascii) (a b : string) :
  String x a +:+ b = String x (a +:+ b).
Proof. reflexivity. Qed.

Lemma append_nil_l' (a : string) : "" +:+ a = a.
Proof. reflexivity. Qed.

Lemma append_assoc (a b c : string) : (a +:+ b) +:+ c = a +:+ (b +:+ c).
Proof.
  induction a as [|x a IH]; [reflexivity |].
  rewrite !append_cons. now rewrite IH.
Qed.

Lemma append_nonempty_l (a b : string) : a <> "" -> a +:+ b <> "".
Proof. destruct a; [congruence | rewrite append_cons; discriminate]. Qed.

Lemma bytes_app (a b : string) : bytes (a +:+ b) = bytes a ++ bytes b.
Proof.
  unfold bytes. induction a as [|x a IH]; [reflexivity |].
  rewrite append_cons. simpl. now rewrite IH.
Qed.

Lemma nonEmpty_true (s : string) : nonEmpty s = true <-> s <> "".
Proof. destruct s; simpl; split; congruence. Qed.

Lemma Join_cons (x : string) (l : list string) (sep : string) :
  l <> [] -> Join (x :: l) sep = x +:+ sep +:+ Join l sep.
Proof. destruct l; [congruence | reflexivity]. Qed.

Lemma Join_app (a b : list string) (sep : string) :
  a <> [] -> b <> [] ->
  Join (a ++ b) sep = Join a sep +:+ sep +:+ Join b sep.
Proof.
  intros Ha Hb. induction a as [|x a IH]; [congruence |].
  destruct a as [|y a].
  - simpl app. now rewrite Join_cons.
  - change ((x :: y :: a) ++ b) with (x :: ((y :: a) ++ b)).
    rewrite (Join_cons x ((y :: a) ++ b)) by (simpl; discriminate).
    rewrite (Join_cons x (y :: a)) by discriminate.
    rewrite IH by discriminate.
    now rewrite !append_assoc.
Qed.

Lemma concat_nonempty {A} (gs : list (list A)) :
  gs <> [] -> Forall (fun g => g <> []) gs -> List.concat gs <> [].
Proof.
  destruct gs as [|g gs]; [congruence |].
  intros _ Hne. inversion Hne as [|? ? Hg _]; subst.
  simpl. destruct g; [congruence | discriminate].
Qed.

(** Joining the joined groups is joining all the elements, provided no
    group is empty. *)
Lemma Join_concat (gs : list (list string)) (sep : string) :
  Forall (fun g => g <> []) gs ->
  Join (map (fun g => Join g sep) gs) sep = Join (List.concat gs) sep.
Proof.
  induction gs as [|g gs IH]; intros Hne; [reflexivity |].
  inversion Hne as [|? ? Hg Hgs]; subst.
  destruct gs as [|g' gs].
  - simpl. now rewrite app_nil_r.
  - rewrite map_cons, Join_cons by discriminate.
    rewrite IH by assumption.
    change (List.concat (g :: g' :: gs)) with (g ++ List.concat (g' :: gs)).
    rewrite Join_app; [reflexivity | assumption |].
    apply concat_nonempty; [discriminate | assumption].
Qed.

Lemma Join_nonempty (l : list string) (sep : string) :
  l <> [] -> Forall (fun t => t <> "") l -> Join l sep <> "".
Proof.
  destruct l as [|x l]; [congruence |].
  intros _ Hl. inversion Hl as [|? ? Hx _]; subst.
  destruct l; [exact Hx |].
  rewrite Join_cons by discriminate. now apply append_nonempty_l.
Qed.

(** ** The fallback chunker *)

Lemma last_app_nonempty {A} (l1 l2 : list A) (d : A) :
  l2 <> [] -> List.last (l1 ++ l2) d = List.last l2 d.
Proof.
  intros Hne. induction l1 as [|x l1 IH]; [reflexivity |].
  simpl app. simpl List.last. rewrite IH.
  destruct (l1 ++ l2) eqn:E; [| reflexivity].
  apply app_eq_nil in E. tauto.
Qed.

Lemma chunk_inv_init : chunk_inv chunkState_init [] [].
Proof. repeat split. constructor. Qed.

Lemma chunk_step_inv D st groups cur w :
  chunk_inv st groups cur ->
  exists groups' cur',
    chunk_inv (chunk_step D st w) groups' cur'
    /\ List.concat groups' ++ cur' = List.concat groups ++ cur ++ [w].
Proof.
  intros (Hseg & Hne & Hchunk & Hcur).
  assert (Hstart : (if cs_started st then cs_chunkStart st else w_Start w)
                   = w_Start (hd wordEntry_zero (cur ++ [w]))).
  { destruct cur as [|w0 cur]; simpl.
    - now rewrite Hcur.
    - destruct Hcur as [-> ->]. reflexivity. }
  unfold chunk_step. rewrite Hstart.
  destruct (PrimFloat.leb D _) eqn:Hflush.
  - exists (groups ++ [cur ++ [w]]), []. split.
    + repeat split; simpl.
      * rewrite Hseg, map_app. simpl. f_equal.
        unfold seg_of_group. rewrite List.last_last, map_app, Hchunk. reflexivity.
      * apply Forall_app. split; [assumption |].
        constructor; [destruct cur; discriminate | constructor].
    + rewrite concat_app. simpl. now rewrite !app_nil_r.
  - exists groups, (cur ++ [w]). split.
    + repeat split; simpl; try assumption.
      * now rewrite map_app, Hchunk.
      * destruct cur; simpl; split; reflexivity.
    + reflexivity.
Qed.

Lemma chunk_fold_inv D ws : forall st groups cur,
  chunk_inv st groups cur ->
  exists groups' cur',
    chunk_inv (fold_left (chunk_step D) ws st) groups' cur'
    /\ List.concat groups' ++ cur' = List.concat groups ++ cur ++ ws.
Proof.
  induction ws as [|w ws IH]; intros st groups cur Hinv.
  - exists groups, cur. now rewrite app_nil_r.
  - destruct (chunk_step_inv D st groups cur w Hinv) as (g1 & c1 & H1 & E1).
    destruct (IH _ _ _ H1) as (g2 & c2 & H2 & E2).
    exists g2, c2. split; [exact H2 |].
    rewrite E2, app_assoc, E1. now rewrite <- !app_assoc.
Qed.

Lemma chunk_loop_inv D words :
  exists groups cur,
    chunk_inv (chunk_loop D words) groups cur
    /\ List.concat groups ++ cur = words.
Proof.
  destruct (chunk_fold_inv D words _ _ _ chunk_inv_init) as (g & c & H1 & E).
  now exists g, c.
Qed.

(** The chunker cuts the word list into consecutive non-empty groups and
    emits the segment of each one, in order. *)
Lemma groupWords_groups words D :
  exists groups,
    Forall (fun g => g <> []) groups
    /\ List.concat groups = words
    /\ groupWordsIntoChunks words D = map seg_of_group groups.
Proof.
  destruct (chunk_loop_inv D words) as (groups & cur & Hinv & Hw).
  destruct Hinv as (Hseg & Hne & Hchunk & Hcur).
  unfold groupWordsIntoChunks, chunk_flush. rewrite Hchunk, length_map.
  destruct cur as [|w0 cur].
  - exists groups. rewrite app_nil_r in Hw. simpl. auto.
  - exists (groups ++ [w0 :: cur]).
    assert (Hlen : (0 <? length words)%nat = true).
    { apply Nat.ltb_lt. rewrite <- Hw, length_app. simpl. lia. }
    rewrite Hlen. simpl andb. cbv iota.
    repeat split.
    + apply Forall_app. split; [assumption | repeat constructor; discriminate].
    + rewrite concat_app. simpl. now rewrite app_nil_r.
    + rewrite Hseg, map_app. simpl. f_equal. unfold seg_of_group.
      destruct Hcur as [_ ->]. simpl hd.
      rewrite <- Hw, last_app_nonempty by discriminate. reflexivity.
Qed.

Lemma hd_In {A} (g : list A) (d : A) : g <> [] -> In (hd d g) g.
Proof. destruct g; [congruence | intros _; now left]. Qed.

Lemma last_In {A} (g : list A) (d : A) : g <> [] -> In (List.last g d) g.
Proof.
  induction g as [|x g IH]; [congruence |]. intros _.
  destruct g as [|y g]; [now left |].
  right. apply IH. discriminate.
Qed.

(** C5 (as amended).  On the words of the chunk-boundary example and
    [D = 3.0] the chunker returns exactly two segments: "Hello world this
    is a" from 0.0 to 3.2, then "test" from 3.3 (the start of its own first
    word) to 3.5. *)
Theorem C5_basic_chunking :
  groupWordsIntoChunks basicChunkingWords 3.0%float
  = [ mkASRSegment 0.0 3.2 "Hello world this is a";
      mkASRSegment 3.3 3.5 "test" ]%float.
Proof. vm_compute. reflexivity. Qed.

(** C5, as stated, has the second segment start at 3.2: it does not. *)
Lemma C5_second_start_is_not_3_2 :
  groupWordsIntoChunks basicChunkingWords 3.0%float
  <> [ mkASRSegment 0.0 3.2 "Hello world this is a";
       mkASRSegment 3.2 3.5 "test" ]%float.
Proof.
  intros E.
  apply (f_equal (fun l => match l with
                           | [_; s] => (seg_Start s =? 3.2)%float
                           | _ => true
                           end)) in E.
  vm_compute in E. discriminate E.
Qed.

(** C3 (as amended).  When every word token is non-empty, no segment of
    the chunker has an empty text; and, for every word list, when a chunk
    is still open at the end of the input, the output is the segments
    flushed in the loop followed by one final segment whose end time is
    the end time of the last word. *)
Theorem C3_chunker_text_and_final_end (words : list wordEntry) (D : float) :
  (Forall (fun w => w_Word w <> "") words ->
   forall s, In s (groupWordsIntoChunks words D) -> seg_Text s <> "")
  /\ (cs_chunk (chunk_loop D words) <> [] ->
      exists s,
        groupWordsIntoChunks words D = cs_segments (chunk_loop D words) ++ [s]
        /\ seg_End s = w_End (List.last words wordEntry_zero)).
Proof.
  split.
  - intros Htok s Hs.
    destruct (groupWords_groups words D) as (groups & Hne & Hcat & Hout).
    rewrite Hout in Hs. apply in_map_iff in Hs. destruct Hs as (g & <- & Hg).
    simpl. apply Join_nonempty.
    + rewrite Forall_forall in Hne. specialize (Hne g Hg).
      destruct g; [congruence | discriminate].
    + apply Forall_forall. intros t Ht.
      apply in_map_iff in Ht. destruct Ht as (w & <- & Hw).
      rewrite Forall_forall in Htok. apply Htok.
      rewrite <- Hcat. apply in_concat. eauto.
  - intros Hopen. unfold groupWordsIntoChunks, chunk_flush.
    destruct words as [|w0 words]; [now elim Hopen |].
    destruct (cs_chunk (chunk_loop D (w0 :: words))) as [|t ts] eqn:E;
      [congruence |].
    simpl length. simpl andb. cbv iota.
    eexists. split; reflexivity.
Qed.

Lemma C3_witness :
  (forall s, In s (groupWordsIntoChunks basicChunkingWords 3.0%float) ->
             seg_Text s <> "")
  /\ exists s,
       groupWordsIntoChunks basicChunkingWords 3.0%float
       = cs_segments (chunk_loop 3.0%float basicChunkingWords) ++ [s]
       /\ seg_End s = w_End (List.last basicChunkingWords wordEntry_zero).
Proof.
  destruct (C3_chunker_text_and_final_end basicChunkingWords 3.0%float)
    as [Htext Hend].
  split.
  - apply Htext. repeat constructor; discriminate.
  - apply Hend. vm_compute. discriminate.
Defined.

(** C3, as stated, fails on a word whose token is empty: the chunker emits
    a segment with the empty text. *)
Lemma C3_empty_token_gives_empty_text :
  exists s, In s (groupWordsIntoChunks emptyTokenWords 3.0%float)
            /\ seg_Text s = "".
Proof.
  exists (mkASRSegment 0.0 0.5 "")%float. split; [| reflexivity].
  vm_compute. left. reflexivity.
Qed.

(** C10.  The chunker consumes every word exactly once and in order: its
    output is the list of the segments of consecutive non-empty groups
    that partition the input; the space-joined texts of the segments are
    the space-joined tokens of the input; every segment starts where some
    input word starts and ends where some input word ends. *)
Theorem C10_chunker_consumes_every_word (words : list wordEntry) (D : float) :
  (exists groups,
      Forall (fun g => g <> []) groups
      /\ List.concat groups = words
      /\ groupWordsIntoChunks words D = map seg_of_group groups)
  /\ Join (map seg_Text (groupWordsIntoChunks words D)) " "
     = Join (map w_Word words) " "
  /\ forall s, In s (groupWordsIntoChunks words D) ->
       (exists w, In w words /\ seg_Start s = w_Start w)
       /\ (exists w, In w words /\ seg_End s = w_End w).
Proof.
  destruct (groupWords_groups words D) as (groups & Hne & Hcat & Hout).
  split; [now exists groups |]. split.
  - rewrite Hout, <- Hcat, map_map. simpl.
    rewrite concat_map, <- Join_concat.
    + now rewrite map_map.
    + apply Forall_forall. intros g' Hg'.
      apply in_map_iff in Hg'. destruct Hg' as (g & <- & Hg).
      rewrite Forall_forall in Hne. specialize (Hne g Hg).
      destruct g; [congruence | discriminate].
  - intros s Hs. rewrite Hout in Hs.
    apply in_map_iff in Hs. destruct Hs as (g & <- & Hg).
    rewrite Forall_forall in Hne. specialize (Hne g Hg).
    split.
    + exists (hd wordEntry_zero g). split; [| reflexivity].
      rewrite <- Hcat. apply in_concat. exists g. split; [assumption |].
      now apply hd_In.
    + exists (List.last g wordEntry_zero). split; [| reflexivity].
      rewrite <- Hcat. apply in_concat. exists g. split; [assumption |].
      now apply last_In.
Qed.

(** The other cases of the tests of the chunker. *)
Example chunking_empty : groupWordsIntoChunks [] 3.0%float = [].
Proof. reflexivity. Qed.

Example chunking_single_word :
  groupWordsIntoChunks [ mkWord "hello" 0.0 0.5 ]%float 3.0%float
  = [ mkASRSegment 0.0 0.5 "hello" ]%float.
Proof. vm_compute. reflexivity. Qed.

Example chunking_exact_boundary :
  map seg_Text
      (groupWordsIntoChunks
         [ mkWord "a" 0.0 1.0; mkWord "b" 1.0 2.0; mkWord "c" 2.0 3.0;
           mkWord "d" 3.5 4.0 ]%float 3.0%float)
  = [ "a b c"; "d" ].
Proof. vm_compute. reflexivity. Qed.

Example chunking_long_gap :
  map seg_Text
      (groupWordsIntoChunks
         [ mkWord "first" 0.0 0.5; mkWord "second" 10.0 10.5 ]%float 3.0%float)
  = [ "first second" ].
Proof. vm_compute. reflexivity. Qed.

(** A single word longer than the chunk duration closes its own chunk. *)
Example chunking_long_first_word :
  groupWordsIntoChunks
    [ mkWord "looong" 0.0 4.0; mkWord "x" 4.1 4.2 ]%float 3.0%float
  = [ mkASRSegment 0.0 4.0 "looong"; mkASRSegment 4.1 4.2 "x" ]%float.
Proof. vm_compute. reflexivity. Qed.

(** ** strings.TrimSpace *)

Section TrimFacts.
Variable sp2 : ascii -> ascii -> bool.
Variable sp3 : ascii -> ascii -> ascii -> bool.

Lemma spaceLen_trimFront_le (n : nat) : forall s,
  length s <= n -> spaceLen sp2 sp3 (trimFront sp2 sp3 s) = 0.
Proof.
  induction n as [|n IH]; intros s Hlen.
  - destruct s; [reflexivity | simpl in Hlen; lia].
  - destruct s as [|c s1]; [reflexivity |].
    simpl in Hlen. simpl trimFront.
    destruct (asciiSpace c) eqn:Ec; [apply IH; lia |].
    destruct s1 as [|d s2]; [simpl; now rewrite Ec |].
    simpl in Hlen.
    destruct (sp2 c d) eqn:E2; [apply IH; lia |].
    destruct s2 as [|e s3]; [simpl; now rewrite Ec, E2 |].
    simpl in Hlen.
    destruct (sp3 c d e) eqn:E3; [apply IH; lia |].
    simpl. now rewrite Ec, E2, E3.
Qed.

Lemma spaceLen_trimFront (s : list ascii) :
  spaceLen sp2 sp3 (trimFront sp2 sp3 s) = 0.
Proof. apply (spaceLen_trimFront_le (length s)). lia. Qed.

Lemma trimFront_suffix_le (n : nat) : forall s,
  length s <= n -> exists p, s = p ++ trimFront sp2 sp3 s.
Proof.
  induction n as [|n IH]; intros s Hlen.
  - destruct s; [now exists [] | simpl in Hlen; lia].
  - destruct s as [|c s1]; [now exists [] |].
    simpl in Hlen. simpl trimFront.
    destruct (asciiSpace c).
    { destruct (IH s1) as [p Hp]; [lia |]. exists (c :: p). simpl. congruence. }
    destruct s1 as [|d s2]; [now exists [] |].
    simpl in Hlen.
    destruct (sp2 c d).
    { destruct (IH s2) as [p Hp]; [lia |]. exists (c :: d :: p). simpl. congruence. }
    destruct s2 as [|e s3]; [now exists [] |].
    simpl in Hlen.
    destruct (sp3 c d e); [| now exists []].
    destruct (IH s3) as [p Hp]; [lia |]. exists (c :: d :: e :: p). simpl. congruence.
Qed.

Lemma trimFront_suffix (s : list ascii) :
  exists p, s = p ++ trimFront sp2 sp3 s.
Proof. apply (trimFront_suffix_le (length s)). lia. Qed.

(** A sequence that starts with no white-space rune has no prefix that
    starts with one. *)
Lemma spaceLen_prefix (y z : list ascii) :
  spaceLen sp2 sp3 (y ++ z) = 0 -> spaceLen sp2 sp3 y = 0.
Proof.
  destruct y as [|c [|d [|e y]]]; simpl; try reflexivity.
  - destruct (asciiSpace c); [destruct z; discriminate | reflexivity].
  - destruct (asciiSpace c); [discriminate |].
    destruct (sp2 c d); [destruct z; discriminate | reflexivity].
  - tauto.
Qed.

(** The separator of [Join] is not part of a multi-byte white-space rune:
    a non-empty token that starts with no white-space rune still starts
    with none when a space and more bytes follow it. *)
Hypothesis sp2_sep : forall c, sp2 c " "%char = false.
Hypothesis sp3_sep_mid : forall c e, sp3 c " "%char e = false.
Hypothesis sp3_sep_last : forall c d, sp3 c d " "%char = false.

Lemma spaceLen_app_sep (t r : list ascii) :
  t <> [] -> spaceLen sp2 sp3 t = 0 ->
  spaceLen sp2 sp3 (t ++ " "%char :: r) = 0.
Proof.
  intros Hne. destruct t as [|c [|d [|e t]]]; simpl; try congruence.
  - destruct (asciiSpace c); [discriminate |]. intros _.
    rewrite sp2_sep. destruct r; [reflexivity |]. now rewrite sp3_sep_mid.
  - destruct (asciiSpace c); [discriminate |].
    destruct (sp2 c d); [discriminate |]. intros _.
    now rewrite sp3_sep_last.
Qed.

End TrimFacts.

Lemma space2_sep c : space2 c " "%char = false.
Proof. unfold space2. apply andb_false_r. Qed.

Lemma space3_sep_mid c e : space3 c " "%char e = false.
Proof.
  unfold space3.
  change (code " "%char) with 32%N. simpl N.eqb.
  now rewrite !andb_false_r.
Qed.

Lemma space3_sep_last c d : space3 c d " "%char = false.
Proof.
  unfold space3.
  change (code " "%char) with 32%N. simpl N.eqb. simpl N.leb.
  now rewrite !andb_false_r.
Qed.

Lemma space2r_sep c : space2r c " "%char = false.
Proof. reflexivity. Qed.

Lemma space3r_sep_mid c e : space3r c " "%char e = false.
Proof. unfold space3r. apply space3_sep_mid. Qed.

Lemma space3r_sep_last c d : space3r c d " "%char = false.
Proof. reflexivity. Qed.

Lemma bytes_TrimSpace (s : string) :
  bytes (TrimSpace s) = TrimRight (TrimLeft (bytes s)).
Proof. unfold TrimSpace, bytes. apply list_ascii_of_string_of_list_ascii. Qed.

(** The result of [strings.TrimSpace] neither starts nor ends with white
    space. *)
Lemma TrimSpace_trimmed (s : string) : trimmed (TrimSpace s).
Proof.
  unfold trimmed. rewrite bytes_TrimSpace.
  set (x := TrimLeft (bytes s)).
  assert (Hx : leadSpace x = 0) by apply spaceLen_trimFront.
  split.
  - unfold TrimRight.
    destruct (trimFront_suffix space2r space3r (rev x)) as [p Hp].
    apply (f_equal (@rev ascii)) in Hp.
    rewrite rev_involutive, rev_app_distr in Hp.
    unfold leadSpace in *. rewrite Hp in Hx.
    now apply spaceLen_prefix in Hx.
  - unfold trailSpace, TrimRight. rewrite rev_involutive.
    apply spaceLen_trimFront.
Qed.

(** Tokens that are non-empty and trimmed, joined by single spaces, give a
    non-empty, trimmed text. *)
Lemma Join_trimmed (l : list string) :
  l <> [] -> Forall (fun t => t <> "" /\ trimmed t) l -> trimmed (Join l " ").
Proof.
  intros Hne Hall. split.
  - destruct l as [|t l]; [congruence |].
    inversion Hall as [|? ? [Ht [Hlead _]] _]; subst.
    destruct l as [|t' l]; [exact Hlead |].
    rewrite Join_cons by discriminate.
    rewrite bytes_app, append_cons, append_nil_l'.
    apply spaceLen_app_sep;
      auto using space2_sep, space3_sep_mid, space3_sep_last.
    destruct t; [congruence | discriminate].
  - destruct (exists_last Hne) as (l0 & t & ->).
    apply Forall_app in Hall. destruct Hall as [_ Hall].
    inversion Hall as [|? ? [Ht [_ Htrail]] _]; subst.
    destruct l0 as [|t0 l0]; [exact Htrail |].
    rewrite Join_app by discriminate.
    unfold trailSpace in *.
    rewrite bytes_app, append_cons, append_nil_l'.
    change (bytes (String " " (Join [t] " "))) with (" "%char :: bytes t).
    rewrite rev_app_distr. simpl rev. rewrite <- app_assoc. simpl app.
    apply spaceLen_app_sep;
      auto using space2r_sep, space3r_sep_mid, space3r_sep_last.
    destruct t; [congruence |]. simpl.
    intros E. apply app_eq_nil in E. destruct E; discriminate.
Qed.

(** ** The segmentation of [RunASR] *)

Example TrimSpace_buy_now : TrimSpace "  Buy now  " = "Buy now".
Proof. reflexivity. Qed.

Example TrimSpace_blank : TrimSpace "   " = "".
Proof. reflexivity. Qed.

Example segment_utterances :
  Segments (segmentResponse utterancesResponse)
  = [ mkASRSegment 0.0 2.5 "Hello world"; mkASRSegment 3.0 5.0 "Buy now" ]%float.
Proof. vm_compute. reflexivity. Qed.

Example segment_words :
  map seg_Text (Segments (segmentResponse wordsResponse))
  = [ "Buy this product now"; "and save" ].
Proof. vm_compute. reflexivity. Qed.

Lemma utterance_fold (us : list utterance) : forall acc,
  fold_left utterance_step us acc
  = acc ++ map seg_of_utterance (List.filter nonBlank us).
Proof.
  induction us as [|u us IH]; intros acc; simpl.
  - now rewrite app_nil_r.
  - rewrite IH. unfold utterance_step, nonBlank.
    destruct (nonEmpty (TrimSpace (u_Transcript u))); simpl.
    + now rewrite <- app_assoc.
    + reflexivity.
Qed.

Lemma utteranceSegments_spec (dgResp : deepgramResponse) :
  utteranceSegments dgResp
  = map seg_of_utterance (List.filter nonBlank (Utterances (Results dgResp))).
Proof. unfold utteranceSegments. now rewrite utterance_fold. Qed.

(** The fallback replaces the segments of the primary path only when there
    are none. *)
Lemma wordFallback_nonempty dgResp segments :
  segments <> [] -> wordFallback dgResp segments = segments.
Proof. destruct segments; [congruence | reflexivity]. Qed.

Lemma wordFallback_empty dgResp :
  wordFallback dgResp [] = groupWordsIntoChunks (fallbackWords dgResp) 3.0%float.
Proof.
  unfold wordFallback, fallbackWords.
  destruct (Channels (Results dgResp)) as [|c0 cs]; [reflexivity |].
  simpl. destruct (Alternatives c0); reflexivity.
Qed.

(** C2.  When some utterance has a non-blank transcript, the segmentation
    emits exactly one segment per utterance whose trimmed transcript is
    not empty, in the order of the utterances, each with the start and the
    end of its utterance and the trimmed transcript as text; the other
    utterances are dropped. *)
Theorem C2_primary_path (dgResp : deepgramResponse) :
  (exists u, In u (Utterances (Results dgResp))
             /\ TrimSpace (u_Transcript u) <> "") ->
  Segments (segmentResponse dgResp)
  = map seg_of_utterance (List.filter nonBlank (Utterances (Results dgResp))).
Proof.
  intros (u & Hu & Htext).
  unfold segmentResponse. simpl Segments.
  rewrite utteranceSegments_spec. apply wordFallback_nonempty.
  intros E. apply map_eq_nil in E.
  assert (Hin : In u (List.filter nonBlank (Utterances (Results dgResp)))).
  { apply filter_In. split; [assumption |]. now apply nonEmpty_true. }
  rewrite E in Hin. exact Hin.
Qed.

Lemma C2_witness :
  Segments (segmentResponse utterancesResponse)
  = map seg_of_utterance
        (List.filter nonBlank (Utterances (Results utterancesResponse))).
Proof.
  apply (C2_primary_path utterancesResponse).
  exists (mkUtterance 0.0 2.5 "Hello world")%float. split.
  - simpl. left. reflexivity.
  - vm_compute. discriminate.
Defined.

Lemma orderedb_cons (w : wordEntry) (rest : list wordEntry) :
  orderedb (w :: rest)
  = forallb (fun w' => (w_Start w <=? w_End w')%float) (w :: rest)
    && orderedb rest.
Proof. reflexivity. Qed.

Lemma orderedb_app_r (a b : list wordEntry) :
  orderedb (a ++ b) = true -> orderedb b = true.
Proof.
  induction a as [|w a IH]; [trivial |].
  simpl app. rewrite orderedb_cons. intros E.
  apply andb_true_iff in E. apply IH, E.
Qed.

(** In an ordered word list, a group of consecutive words starts no later
    than it ends. *)
Lemma orderedb_group (a g b : list wordEntry) :
  g <> [] -> orderedb (a ++ g ++ b) = true ->
  (w_Start (hd wordEntry_zero g) <=? w_End (List.last g wordEntry_zero))%float
  = true.
Proof.
  intros Hne E. apply orderedb_app_r in E.
  destruct g as [|w g]; [congruence |].
  simpl app in E. rewrite orderedb_cons in E.
  apply andb_true_iff in E. destruct E as [E _].
  rewrite forallb_forall in E. apply E.
  change (w :: g ++ b) with ((w :: g) ++ b).
  apply in_or_app. left. now apply last_In.
Qed.

(** C4 (as amended).  Every segment of the primary path has a non-empty
    text without white space at either end, and the start and the end of
    the utterance it comes from.  When every utterance ends no earlier
    than it starts, every token of the fallback words is non-empty and
    trimmed, and no fallback word ends before it or an earlier word
    starts, every segment of the segmentation (primary or fallback path)
    has [end >= start] and a non-empty, trimmed text. *)
Theorem C4_segment_invariant (dgResp : deepgramResponse) :
  (forall s, In s (utteranceSegments dgResp) ->
     seg_Text s <> "" /\ trimmed (seg_Text s)
     /\ exists u, In u (Utterances (Results dgResp))
                  /\ seg_Start s = u_Start u /\ seg_End s = u_End u)
  /\ (Forall (fun u => (u_Start u <=? u_End u)%float = true)
             (Utterances (Results dgResp)) ->
      Forall (fun w => w_Word w <> "" /\ trimmed (w_Word w))
             (fallbackWords dgResp) ->
      orderedb (fallbackWords dgResp) = true ->
      forall s, In s (Segments (segmentResponse dgResp)) -> segment_ok s).
Proof.
  assert (Hprimary :
    forall s, In s (utteranceSegments dgResp) ->
      seg_Text s <> "" /\ trimmed (seg_Text s)
      /\ exists u, In u (Utterances (Results dgResp))
                   /\ seg_Start s = u_Start u /\ seg_End s = u_End u).
  { intros s Hs. rewrite utteranceSegments_spec in Hs.
    apply in_map_iff in Hs. destruct Hs as (u & <- & Hu).
    apply filter_In in Hu. destruct Hu as [Hu Hnb].
    split; [now apply nonEmpty_true |].
    split; [apply TrimSpace_trimmed |].
    exists u. auto. }
  split; [exact Hprimary |].
  intros Hutt Htok Hord s Hs.
  unfold segmentResponse in Hs. simpl Segments in Hs.
  destruct (utteranceSegments dgResp) as [|s0 segs] eqn:Eprim.
  - rewrite wordFallback_empty in Hs.
    destruct (groupWords_groups (fallbackWords dgResp) 3.0%float)
      as (groups & Hne & Hcat & Hout).
    rewrite Hout in Hs. apply in_map_iff in Hs. destruct Hs as (g & <- & Hg).
    rewrite Forall_forall in Hne. specialize (Hne g Hg).
    assert (Hsub : forall w, In w g -> In w (fallbackWords dgResp)).
    { intros w Hw. rewrite <- Hcat. apply in_concat. eauto. }
    assert (Hgtok : Forall (fun t => t <> "" /\ trimmed t) (map w_Word g)).
    { apply Forall_forall. intros t Ht.
      apply in_map_iff in Ht. destruct Ht as (w & <- & Hw).
      rewrite Forall_forall in Htok. apply Htok. auto. }
    assert (Hgne : map w_Word g <> []) by (destruct g; [congruence | discriminate]).
    repeat split.
    + apply in_split in Hg. destruct Hg as (l1 & l2 & ->).
      rewrite concat_app in Hcat. simpl in Hcat.
      rewrite <- Hcat in Hord. simpl.
      now apply (orderedb_group (List.concat l1) g (List.concat l2)).
    + simpl. apply Join_nonempty; [assumption |].
      eapply Forall_impl; [| exact Hgtok]. simpl. tauto.
    + apply (Join_trimmed _ Hgne Hgtok).
    + apply (Join_trimmed _ Hgne Hgtok).
  - rewrite wordFallback_nonempty in Hs by discriminate.
    destruct (Hprimary s Hs) as (Htext & Htrim & u & Hu & Hst & Hen).
    repeat split; try assumption; try apply Htrim.
    rewrite Hst, Hen. rewrite Forall_forall in Hutt. now apply Hutt.
Qed.

Lemma C4_witness :
  (forall s, In s (Segments (segmentResponse utterancesResponse)) ->
             segment_ok s)
  /\ (forall s, In s (Segments (segmentResponse wordsResponse)) ->
                segment_ok s).
Proof.
  split.
  - apply (C4_segment_invariant utterancesResponse).
    + repeat constructor.
    + constructor.
    + reflexivity.
  - apply (C4_segment_invariant wordsResponse).
    + constructor.
    + repeat constructor; discriminate.
    + vm_compute. reflexivity.
Defined.

(** C4, as stated, fails on decodable responses: a segment of the primary
    path ends before it starts when its utterance does, and a segment of
    the fallback path has a text made of white space when its word has. *)
Lemma C4_backwards_utterance_and_blank_token :
  (exists s, In s (Segments (segmentResponse backwardsResponse))
             /\ (seg_Start s <=? seg_End s)%float = false)
  /\ (exists s, In s (Segments (segmentResponse blankTokenResponse))
                /\ leadSpace (bytes (seg_Text s)) <> 0).
Proof.
  split.
  - exists (mkASRSegment 5.0 1.0 "hi")%float. split; [| reflexivity].
    vm_compute. left. reflexivity.
  - exists (mkASRSegment 0.0 0.5 " ")%float. split; [| discriminate].
    vm_compute. left. reflexivity.
Qed.

(** ** [RunASR] *)

Section RunASRFacts.
Context `{Platform}.
Variable deepgramBaseURL : string.

Lemma RunASR_request (videoBytes apiKey : string) :
  url_error (deepgramListenURL deepgramBaseURL) = None ->
  RunASR deepgramBaseURL videoBytes apiKey
  = (do r <- http_Do (asrRequest deepgramBaseURL videoBytes apiKey);
     match r with
     | inl err => ret (None, Some ("deepgram request: " +:+ err))
     | inr resp =>
         if negb (StatusCode resp =? StatusOK)%Z
         then ret (None, Some ("deepgram returned " +:+ itoa (StatusCode resp)
                               +:+ ": " +:+ body_data (resp_Body resp)))
         else match decode_deepgramResponse (resp_Body resp) with
              | inl err => ret (None, Some ("decode response: " +:+ err))
              | inr dgResp => ret (Some (segmentResponse dgResp), None)
              end
     end).
Proof.
  intros Hurl. unfold RunASR, NewRequestWithContext. rewrite Hurl. reflexivity.
Qed.

(** A decoded answer with status 200 is segmented and returned. *)
Lemma RunASR_ok videoBytes apiKey w resp w' dgResp :
  url_error (deepgramListenURL deepgramBaseURL) = None ->
  http_Do (asrRequest deepgramBaseURL videoBytes apiKey) w = (inr resp, w') ->
  StatusCode resp = StatusOK ->
  decode_deepgramResponse (resp_Body resp) = inr dgResp ->
  RunASR deepgramBaseURL videoBytes apiKey w
  = ((Some (segmentResponse dgResp), None), w').
Proof.
  intros Hurl Hdo Hst Hdec. rewrite RunASR_request by assumption.
  unfold bind. rewrite Hdo, Hst, Hdec. reflexivity.
Qed.

(** [RunASR] returns a result or an error, never both and never neither. *)
Lemma RunASR_result_xor_error videoBytes apiKey w :
  match fst (RunASR deepgramBaseURL videoBytes apiKey w) with
  | (Some _, None) | (None, Some _) => True
  | _ => False
  end.
Proof.
  unfold RunASR, NewRequestWithContext, bind, ret.
  destruct (url_error _); [exact I |].
  destruct (http_Do _ w) as [[err | resp] w']; [exact I |].
  destruct (negb _); [exact I |].
  destruct (decode_deepgramResponse _); exact I.
Qed.

(** C8.  When the provider answers [RunASR]'s request with a status other
    than 200, [RunASR] returns no result and an error whose message
    carries the status code, in decimal, and the body of the response. *)
Theorem C8_non_ok_status videoBytes apiKey w resp w' :
  url_error (deepgramListenURL deepgramBaseURL) = None ->
  http_Do (asrRequest deepgramBaseURL videoBytes apiKey) w = (inr resp, w') ->
  StatusCode resp <> StatusOK ->
  RunASR deepgramBaseURL videoBytes apiKey w
  = ((None,
      Some ("deepgram returned " +:+ itoa (StatusCode resp) +:+ ": "
            +:+ body_data (resp_Body resp))),
     w').
Proof.
  intros Hurl Hdo Hst. rewrite RunASR_request by assumption.
  unfold bind. rewrite Hdo.
  apply Z.eqb_neq in Hst. rewrite Hst. reflexivity.
Qed.

End RunASRFacts.

Example itoa_500 : itoa 500 = "500".
Proof. reflexivity. Qed.

Example itoa_429 : itoa 429 = "429".
Proof. reflexivity. Qed.

Lemma C8_witness :
  @RunASR scriptPlatform "http://deepgram.test" "video" "key" serverErrorWorld
  = ((None, Some "deepgram returned 500: internal error"),
     mkScriptWorld [] []).
Proof.
  apply (@C8_non_ok_status scriptPlatform "http://deepgram.test" "video" "key"
           serverErrorWorld
           (mkResponse StatusInternalServerError (okBody "internal error"))
           (mkScriptWorld [] [])).
  - reflexivity.
  - reflexivity.
  - vm_compute. discriminate.
Defined.

(** [TestRunASR_Utterances] and [TestRunASR_FallbackToWords], with the toy
    codec of [scriptPlatform]. *)
Example RunASR_utterances :
  fst (@RunASR scriptPlatform "http://deepgram.test" "fake-video" "test-key"
         (mkScriptWorld [ inr (mkResponse StatusOK (okBody "utterances")) ] []))
  = (Some (mkASRResult [ mkASRSegment 0.0 2.5 "Hello world";
                         mkASRSegment 3.0 5.0 "Buy now" ]%float),
     None).
Proof. vm_compute. reflexivity. Qed.

Example RunASR_fallback_to_words :
  fst (@RunASR scriptPlatform "http://deepgram.test" "video" "key"
         (mkScriptWorld [ inr (mkResponse StatusOK (okBody "words")) ] []))
  = (Some (mkASRResult [ mkASRSegment 0.0 4.5 "Buy this product now";
                         mkASRSegment 5.0 6.0 "and save" ]%float),
     None).
Proof. vm_compute. reflexivity. Qed.

(** ** [callGemini] and [RunVLM] *)

Section VLMFacts.
Context `{Platform}.
Variable geminiBaseURL : string.

(** Every failure of the provider is an error of [callGemini], with an
    empty description. *)
Lemma callGemini_failure apiKey imageBytes prompt bodyBytes w0 ans w1 reason :
  marshal_geminiRequest (geminiBody imageBytes prompt) = inr bodyBytes ->
  url_error (geminiGenerateURL geminiBaseURL apiKey) = None ->
  http_Do (geminiHTTPRequest geminiBaseURL apiKey bodyBytes) w0 = (ans, w1) ->
  providerFailure ans reason ->
  callGemini geminiBaseURL apiKey imageBytes prompt w0
  = (("", Some reason), w1).
Proof.
  intros Hm Hurl Hdo Hfail.
  unfold callGemini, NewRequestWithContext. unfold geminiBody in Hm.
  rewrite Hm, Hurl. unfold bind.
  change (Header_Set _ _ _)
    with (geminiHTTPRequest geminiBaseURL apiKey bodyBytes).
  rewrite Hdo.
  destruct Hfail as [err | resp err Hb | resp Hb Hst | resp err Hb Hst Hdec
                    | resp g m Hb Hst Hdec Herr | resp g Hb Hst Hdec Herr Hempty].
  - reflexivity.
  - now rewrite Hb.
  - rewrite Hb. apply Z.eqb_neq in Hst. now rewrite Hst.
  - rewrite Hb, Hst, Hdec. reflexivity.
  - rewrite Hb, Hst, Hdec, Herr. reflexivity.
  - rewrite Hb, Hst, Hdec, Herr.
    destruct Hempty as [-> | (c0 & rest & -> & ->)]; reflexivity.
Qed.

(** The text of the first part of the first candidate is returned trimmed. *)
Lemma callGemini_success apiKey imageBytes prompt bodyBytes w0 resp w1
      gemResp c0 cs text texts :
  marshal_geminiRequest (geminiBody imageBytes prompt) = inr bodyBytes ->
  url_error (geminiGenerateURL geminiBaseURL apiKey) = None ->
  http_Do (geminiHTTPRequest geminiBaseURL apiKey bodyBytes) w0
  = (inr resp, w1) ->
  body_err (resp_Body resp) = None ->
  StatusCode resp = StatusOK ->
  unmarshal_geminiResponse (body_data (resp_Body resp)) = inr gemResp ->
  gr_Error gemResp = None ->
  Candidates gemResp = c0 :: cs ->
  cand_Parts c0 = text :: texts ->
  callGemini geminiBaseURL apiKey imageBytes prompt w0
  = ((TrimSpace text, None), w1).
Proof.
  intros Hm Hurl Hdo Hb Hst Hdec Herr Hc Hp.
  unfold callGemini, NewRequestWithContext. unfold geminiBody in Hm.
  rewrite Hm, Hurl. unfold bind.
  change (Header_Set _ _ _)
    with (geminiHTTPRequest geminiBaseURL apiKey bodyBytes).
  rewrite Hdo, Hb, Hst, Hdec, Herr, Hc, Hp. reflexivity.
Qed.

Lemma vlm_step_run apiKey st kf w desc err w1 :
  callGemini geminiBaseURL apiKey (kf_ImageBytes kf)
             (vlmPrompt (vs_prevDesc st) (kf_TimestampSec kf)) w
  = ((desc, err), w1) ->
  vlm_step geminiBaseURL apiKey st kf w
  = (let c := mkVlmCall w (vlmPrompt (vs_prevDesc st) (kf_TimestampSec kf))
                        desc err in
     mkVlmState
       (vs_frames st
        ++ [mkVLMFrame (kf_FrameIndex kf) (kf_TimestampSec kf) (describe c)])
       (match err with None => desc | Some _ => vs_prevDesc st end)
       (vs_calls st ++ [c]),
     w1).
Proof.
  intros Hcall. unfold vlm_step, bind, getWorld, ret. rewrite Hcall.
  unfold describe. simpl. destruct err; reflexivity.
Qed.

Lemma lastOK_snoc (calls : list vlmCall) (c : vlmCall) :
  lastOK (calls ++ [c])
  = match call_err c with None => call_desc c | Some _ => lastOK calls end.
Proof. unfold lastOK. now rewrite fold_left_app. Qed.

(** [lastOK] is the initial context when every call failed, and the
    description of a successful call when every later call failed. *)
Lemma lastOK_all_failed (calls : list vlmCall) :
  Forall (fun c => call_err c <> None) calls ->
  lastOK calls = firstFrameContext.
Proof.
  induction calls as [|c calls IH] using rev_ind; [reflexivity |].
  intros Hall. apply Forall_app in Hall. destruct Hall as [Hcalls Hc].
  inversion Hc as [|? ? Hce _]; subst.
  rewrite lastOK_snoc. destruct (call_err c); [auto | congruence].
Qed.

Lemma lastOK_last_success (before after : list vlmCall) (c : vlmCall) :
  call_err c = None ->
  Forall (fun c' => call_err c' <> None) after ->
  lastOK (before ++ c :: after) = call_desc c.
Proof.
  intros Hc. induction after as [|c' after IH] using rev_ind; intros Hall.
  - rewrite lastOK_snoc. now rewrite Hc.
  - apply Forall_app in Hall. destruct Hall as [Hafter Hc'].
    inversion Hc' as [|? ? Hce _]; subst.
    change (before ++ c :: after ++ [c']) with (before ++ (c :: after) ++ [c']).
    rewrite app_assoc, lastOK_snoc.
    destruct (call_err c'); [auto | congruence].
Qed.

Lemma vlm_inv_init apiKey : vlm_inv geminiBaseURL apiKey [] vlmState_init.
Proof.
  split; [reflexivity |]. split; [reflexivity |]. split; [reflexivity |].
  intros i kf c Hkf. now rewrite lookup_nil in Hkf.
Qed.

Lemma vlm_step_inv apiKey kfs st kf w st' w' :
  vlm_inv geminiBaseURL apiKey kfs st ->
  vlm_step geminiBaseURL apiKey st kf w = (st', w') ->
  vlm_inv geminiBaseURL apiKey (kfs ++ [kf]) st'.
Proof.
  intros (Hlf & Hlc & Hprev & Hall) Hstep.
  destruct (callGemini geminiBaseURL apiKey (kf_ImageBytes kf)
              (vlmPrompt (vs_prevDesc st) (kf_TimestampSec kf)) w)
    as [[desc err] w1] eqn:Hcall.
  rewrite (vlm_step_run _ _ _ _ _ _ _ Hcall) in Hstep.
  injection Hstep as <- <-. cbv zeta.
  set (c := mkVlmCall w _ desc err).
  unfold vlm_inv. cbn [vs_frames vs_calls vs_prevDesc].
  rewrite !length_app. cbn [length].
  split; [lia |]. split; [lia |]. split.
  - rewrite lastOK_snoc. subst c. cbn [call_err call_desc].
    destruct err; [exact Hprev | reflexivity].
  - intros i kf0 c0 Hkf0 Hc0.
    destruct (decide (i < length kfs)) as [Hlt | Hge].
    + rewrite lookup_app_l in Hkf0 by lia.
      rewrite lookup_app_l in Hc0 by lia.
      rewrite lookup_app_l by lia.
      rewrite take_app_le by lia.
      now apply Hall.
    + assert (i = length kfs) as ->.
      { apply lookup_lt_Some in Hkf0. rewrite length_app in Hkf0.
        cbn [length] in Hkf0. lia. }
      rewrite list_lookup_middle in Hkf0 by reflexivity.
      rewrite list_lookup_middle in Hc0 by (symmetry; exact Hlc).
      rewrite list_lookup_middle by (symmetry; exact Hlf).
      injection Hkf0 as <-. injection Hc0 as <-.
      rewrite <- Hlc, take_app_length.
      subst c. cbn [call_prompt call_world call_desc call_err].
      rewrite <- Hprev. rewrite Hcall. repeat split.
Qed.

Lemma vlm_loop_inv apiKey rest : forall kfs st w st' w',
  vlm_inv geminiBaseURL apiKey kfs st ->
  vlm_loop geminiBaseURL apiKey rest st w = (st', w') ->
  vlm_inv geminiBaseURL apiKey (kfs ++ rest) st'.
Proof.
  induction rest as [|kf rest IH]; intros kfs st w st' w' Hinv Hloop.
  - injection Hloop as <- <-. now rewrite app_nil_r.
  - simpl in Hloop. unfold bind in Hloop.
    destruct (vlm_step geminiBaseURL apiKey st kf w) as [st1 w1] eqn:Hstep.
    change (kfs ++ kf :: rest) with (kfs ++ [kf] ++ rest).
    rewrite app_assoc.
    eapply IH; [| exact Hloop].
    eapply vlm_step_inv; eassumption.
Qed.

Lemma RunVLM_loop keyframes apiKey w st' w' :
  vlm_loop geminiBaseURL apiKey keyframes vlmState_init w = (st', w') ->
  RunVLM geminiBaseURL keyframes apiKey w
  = ((Some (mkVLMResult (vs_frames st')), None), w').
Proof. intros Hloop. unfold RunVLM, bind. now rewrite Hloop. Qed.

End VLMFacts.

Section VLMClaims.
Context `{Platform}.
Variable geminiBaseURL : string.

Lemma vlm_loop_frames apiKey rest : forall st w,
  map (fun f => (FrameIndex f, TimestampSec f))
      (vs_frames (fst (vlm_loop geminiBaseURL apiKey rest st w)))
  = map (fun f => (FrameIndex f, TimestampSec f)) (vs_frames st)
    ++ map (fun kf => (kf_FrameIndex kf, kf_TimestampSec kf)) rest.
Proof.
  induction rest as [|kf rest IH]; intros st w.
  - simpl. now rewrite app_nil_r.
  - simpl vlm_loop. unfold bind.
    destruct (callGemini geminiBaseURL apiKey (kf_ImageBytes kf)
                (vlmPrompt (vs_prevDesc st) (kf_TimestampSec kf)) w)
      as [[desc err] w1] eqn:Hcall.
    rewrite (vlm_step_run _ _ _ _ _ _ _ _ Hcall). cbv zeta.
    rewrite IH. cbn [vs_frames]. rewrite map_app. cbn [map FrameIndex TimestampSec].
    now rewrite <- app_assoc.
Qed.

(** C6.  [RunVLM] returns a result and a nil error for every keyframe
    sequence, credential and world, whatever the calls for the frames
    return; for the empty sequence the result has no frame. *)
Theorem C6_RunVLM_never_fails
        (keyframes : list KeyframeInput) (apiKey : string) (w : World) :
  (exists result,
      fst (RunVLM geminiBaseURL keyframes apiKey w) = (Some result, None))
  /\ RunVLM geminiBaseURL [] apiKey w = ((Some (mkVLMResult []), None), w).
Proof.
  split; [| reflexivity].
  unfold RunVLM, bind.
  destruct (vlm_loop geminiBaseURL apiKey keyframes vlmState_init w)
    as [st' w'].
  now exists (mkVLMResult (vs_frames st')).
Qed.

(** C7.  The frames returned by [RunVLM] are, in order, one per keyframe
    of the input, each with the index and the timestamp of its keyframe. *)
Theorem C7_one_frame_per_keyframe
        (keyframes : list KeyframeInput) (apiKey : string) (w : World) :
  exists result,
    fst (RunVLM geminiBaseURL keyframes apiKey w) = (Some result, None)
    /\ map (fun f => (FrameIndex f, TimestampSec f)) (Frames result)
       = map (fun kf => (kf_FrameIndex kf, kf_TimestampSec kf)) keyframes.
Proof.
  pose proof (vlm_loop_frames apiKey keyframes vlmState_init w) as Hmap.
  unfold RunVLM, bind.
  destruct (vlm_loop geminiBaseURL apiKey keyframes vlmState_init w)
    as [st' w'].
  exists (mkVLMResult (vs_frames st')). split; [reflexivity |].
  exact Hmap.
Qed.

End VLMClaims.

Example RunVLM_error_continues :
  fst (@RunVLM scriptPlatform "http://gemini.test" twoKeyframes "key"
               errorThenOKWorld)
  = (Some (mkVLMResult
             [ mkVLMFrame 0 0.0%float
                          "[Error: gemini returned 500: server error]";
               mkVLMFrame 3 1.5%float "Second frame OK" ]),
     None).
Proof. vm_compute. reflexivity. Qed.

(** A part whose text is blank is not a failure of the provider:
    [callGemini] returns the empty description and no error. *)
Example callGemini_blank_text :
  fst (@callGemini scriptPlatform "http://gemini.test" "key" "img" "prompt"
         (mkScriptWorld [ inr (mkResponse StatusOK (okBody "   ")) ] []))
  = ("", None).
Proof. vm_compute. reflexivity. Qed.


(** ** The request handler *)

Section HandlerFacts.
Context `{Platform}.

Lemma bind_eq {A B : Type} (m : M A) (k : A -> M B) (w : World) a w' :
  m w = (a, w') -> bind m k w = k a w'.
Proof. intros E. unfold bind. now rewrite E. Qed.

Lemma ServeHTTP_accepted h req body w :
  hr_Method req = "POST" ->
  decode_extractRequest (hr_Body req) = inr body ->
  AdID body <> "" ->
  ServeHTTP h req w
  = match DownloadVideo (r2 h) (AdID body) w with
    | ((_, Some err), w1) =>
        (HttpError ("download video: " +:+ err) StatusInternalServerError, w1)
    | ((videoBytes, None), w1) =>
        let (km, w2) := DownloadKeyframeMetadata (r2 h) (AdID body) w1 in
        let keyframeMetas :=
          match snd km with Some _ => None | None => fst km end in
        let log1 :=
          match snd km with
          | Some err => ["WARN: no keyframe metadata for " +:+ AdID body
                         +:+ ": " +:+ err +:+ " (VLM will be skipped)"]
          | None => []
          end in
        let (ki, w3) :=
          match keyframeMetas with
          | None => (([], []), w2)
          | Some metas =>
              match DownloadKeyframeImages (r2 h) (AdID body) metas w2 with
              | ((_, Some err), w3) =>
                  (([], ["WARN: failed to download keyframe images for "
                         +:+ AdID body +:+ ": " +:+ err]), w3)
              | ((None, None), w3) => (([], []), w3)
              | ((Some images, None), w3) =>
                  ((fold_left (keyframeInputs_step images) metas [], []), w3)
              end
          end in
        let keyframeInputs : list KeyframeInput := fst ki in
        (Dispatched
           (log1 ++ snd ki)
           (asrResults h
            ++ (if nonEmpty (GeminiAPIKey (cfg h))
                   && (0 <? length keyframeInputs)%nat
                then []
                else [mkStreamResult "vlm" "skipped" 0 ""
                        (if (length keyframeInputs =? 0)%nat
                         then "no keyframe images available"
                         else "GEMINI_API_KEY not configured")]))
           (asrLaunched h (AdID body) videoBytes
            ++ (if nonEmpty (GeminiAPIKey (cfg h))
                   && (0 <? length keyframeInputs)%nat
                then [GoRunVLM (AdID body) keyframeInputs]
                else [])),
         w3)
    end.
Proof.
  intros Hm Hdec Hid.
  unfold ServeHTTP. rewrite Hm, String.eqb_refl, Hdec. cbn [negb].
  destruct (String.eqb_spec (AdID body) ""); [congruence |].
  unfold bind, ret, asrResults, asrLaunched.
  destruct (DownloadVideo (r2 h) (AdID body) w) as [[v [err|]] w1];
    cbn [fst snd]; [reflexivity |].
  destruct (DownloadKeyframeMetadata (r2 h) (AdID body) w1)
    as [[metas [err|]] w2]; cbn [fst snd].
  - destruct (nonEmpty (DeepgramAPIKey (cfg h)));
      destruct (nonEmpty (GeminiAPIKey (cfg h))); reflexivity.
  - destruct metas as [metas|]; cbn [fst snd].
    + destruct (DownloadKeyframeImages (r2 h) (AdID body) metas w2)
        as [[[images|] [err|]] w3]; cbn [fst snd];
        destruct (nonEmpty (DeepgramAPIKey (cfg h)));
        destruct (nonEmpty (GeminiAPIKey (cfg h)) && _); reflexivity.
    + destruct (nonEmpty (DeepgramAPIKey (cfg h)));
        destruct (nonEmpty (GeminiAPIKey (cfg h))); reflexivity.
Qed.

(** Once the video is there, the decision for the transcript stream is
    the same whatever happens to the keyframes. *)
Lemma ServeHTTP_video_ok h req body w videoBytes w1 :
  hr_Method req = "POST" ->
  decode_extractRequest (hr_Body req) = inr body ->
  AdID body <> "" ->
  DownloadVideo (r2 h) (AdID body) w = ((videoBytes, None), w1) ->
  exists log vlmResults vlmLaunched w',
    ServeHTTP h req w
    = (Dispatched log (asrResults h ++ vlmResults)
                  (asrLaunched h (AdID body) videoBytes ++ vlmLaunched),
       w').
Proof.
  intros Hm Hdec Hid Hvideo.
  rewrite (ServeHTTP_accepted h req body w Hm Hdec Hid), Hvideo.
  destruct (DownloadKeyframeMetadata (r2 h) (AdID body) w1) as [km w2].
  cbv zeta.
  match goal with
  | |- context [let (_, _) := ?m in _] => destruct m as [ki w3]
  end.
  eauto.
Qed.

(** C9.  For a well-formed request: when the download of the video fails,
    [ServeHTTP] answers with the error 500 and launches no stream; when the
    video is there and the download of the keyframe metadata fails, or the
    metadata is there and the download of the keyframe images fails, the
    request is dispatched with a warning, the visual stream is skipped for
    lack of keyframe images and not launched, and the transcript stream is
    launched or skipped by its credential alone, as in every dispatched
    request. *)
Theorem C9_video_is_mandatory_keyframes_are_optional
        (h : ExtractHandler) (req : HTTPRequest) (body : extractRequest)
        (w : World) :
  hr_Method req = "POST" ->
  decode_extractRequest (hr_Body req) = inr body ->
  AdID body <> "" ->
  (forall v err w1,
      DownloadVideo (r2 h) (AdID body) w = ((v, Some err), w1) ->
      ServeHTTP h req w
      = (HttpError ("download video: " +:+ err) StatusInternalServerError, w1)
      /\ served_launched (fst (ServeHTTP h req w)) = [])
  /\ (forall videoBytes w1 metas err w2,
        DownloadVideo (r2 h) (AdID body) w = ((videoBytes, None), w1) ->
        DownloadKeyframeMetadata (r2 h) (AdID body) w1
        = ((metas, Some err), w2) ->
        ServeHTTP h req w
        = (Dispatched
             ["WARN: no keyframe metadata for " +:+ AdID body +:+ ": "
              +:+ err +:+ " (VLM will be skipped)"]
             (asrResults h ++ [vlmSkippedNoImages])
             (asrLaunched h (AdID body) videoBytes),
           w2))
  /\ (forall videoBytes w1 metas w2 images err w3,
        DownloadVideo (r2 h) (AdID body) w = ((videoBytes, None), w1) ->
        DownloadKeyframeMetadata (r2 h) (AdID body) w1
        = ((Some metas, None), w2) ->
        DownloadKeyframeImages (r2 h) (AdID body) metas w2
        = ((images, Some err), w3) ->
        ServeHTTP h req w
        = (Dispatched
             ["WARN: failed to download keyframe images for " +:+ AdID body
              +:+ ": " +:+ err]
             (asrResults h ++ [vlmSkippedNoImages])
             (asrLaunched h (AdID body) videoBytes),
           w3))
  /\ (forall videoBytes w1,
        DownloadVideo (r2 h) (AdID body) w = ((videoBytes, None), w1) ->
        exists log vlmResults vlmLaunched w',
          ServeHTTP h req w
          = (Dispatched log (asrResults h ++ vlmResults)
                        (asrLaunched h (AdID body) videoBytes ++ vlmLaunched),
             w')).
Proof.
  intros Hm Hdec Hid.
  pose proof (ServeHTTP_accepted h req body w Hm Hdec Hid) as Hserve.
  split; [| split; [| split]].
  - intros v err w1 Hvideo. rewrite Hvideo in Hserve.
    rewrite Hserve. split; reflexivity.
  - intros videoBytes w1 metas err w2 Hvideo Hmeta.
    rewrite Hvideo, Hmeta in Hserve. cbn [fst snd] in Hserve.
    rewrite Hserve. cbn [fst snd length]. rewrite andb_false_r.
    cbn [app Nat.eqb]. now rewrite app_nil_r.
  - intros videoBytes w1 metas w2 images err w3 Hvideo Hmeta Himg.
    rewrite Hvideo, Hmeta in Hserve. cbn [fst snd] in Hserve.
    rewrite Himg in Hserve.
    rewrite Hserve. destruct images; cbn [fst snd length];
      rewrite andb_false_r; cbn [app Nat.eqb]; now rewrite app_nil_r.
  - intros videoBytes w1 Hvideo.
    eapply ServeHTTP_video_ok; eassumption.
Qed.

End HandlerFacts.

Lemma C9_witness :
  fst (@ServeHTTP scriptPlatform bothKeysHandler ad1Request noVideoWorld)
  = HttpError "download video: download video ads/ad1/video.mp4: NoSuchKey"
              StatusInternalServerError
  /\ fst (@ServeHTTP scriptPlatform bothKeysHandler ad1Request noMetadataWorld)
     = Dispatched
         ["WARN: no keyframe metadata for ad1: download metadata ads/ad1/keyframes/metadata.json: NoSuchKey (VLM will be skipped)"]
         [vlmSkippedNoImages]
         [GoRunASR "ad1" "video"]
  /\ fst (@ServeHTTP scriptPlatform bothKeysHandler ad1Request noImageWorld)
     = Dispatched
         ["WARN: failed to download keyframe images for ad1: download keyframe ads/ad1/keyframes/0.jpg: NoSuchKey"]
         [vlmSkippedNoImages]
         [GoRunASR "ad1" "video"].
Proof.
  assert (Hid : AdID (mkExtractRequest "ad1") <> "") by discriminate.
  split; [| split].
  - destruct (@C9_video_is_mandatory_keyframes_are_optional scriptPlatform
                bothKeysHandler ad1Request (mkExtractRequest "ad1")
                noVideoWorld eq_refl eq_refl Hid) as (Hvideo & _).
    destruct (Hvideo "" "download video ads/ad1/video.mp4: NoSuchKey"
                     noVideoWorld eq_refl) as [E _].
    rewrite E. reflexivity.
  - destruct (@C9_video_is_mandatory_keyframes_are_optional scriptPlatform
                bothKeysHandler ad1Request (mkExtractRequest "ad1")
                noMetadataWorld eq_refl eq_refl Hid) as (_ & Hmeta & _).
    rewrite (Hmeta "video" noMetadataWorld None
               "download metadata ads/ad1/keyframes/metadata.json: NoSuchKey"
               noMetadataWorld eq_refl eq_refl).
    reflexivity.
  - destruct (@C9_video_is_mandatory_keyframes_are_optional scriptPlatform
                bothKeysHandler ad1Request (mkExtractRequest "ad1")
                noImageWorld eq_refl eq_refl Hid) as (_ & _ & Himg & _).
    rewrite (Himg "video" noImageWorld
               [ mkKeyframeMeta 0 0 0.0%float 1.0%float
                                "ads/ad1/keyframes/0.jpg" ]
               noImageWorld None
               "download keyframe ads/ad1/keyframes/0.jpg: NoSuchKey"
               noImageWorld eq_refl eq_refl eq_refl).
    reflexivity.
Defined.

(** With the video, the metadata and the image in the store and both
    credentials configured, both streams are launched. *)
Example ServeHTTP_all_present :
  fst (@ServeHTTP scriptPlatform bothKeysHandler ad1Request
         (mkScriptWorld []
            [ ("ads/ad1/video.mp4", okBody "video");
              ("ads/ad1/keyframes/metadata.json",
               okBody "ads/ad1/keyframes/0.jpg");
              ("ads/ad1/keyframes/0.jpg", okBody "jpeg") ]))
  = Dispatched [] []
      [ GoRunASR "ad1" "video";
        GoRunVLM "ad1" [ mkKeyframeInput 0 0.0%float "jpeg" ] ].
Proof. vm_compute. reflexivity. Qed.

(* ===================================================================== *)
(** * Further properties of the sources *)
(* ===================================================================== *)

(** ** The chunker, as a greedy algorithm *)

Lemma groups_length_le {A} (groups : list (list A)) :
  Forall (fun g => g <> []) groups ->
  length groups <= length (List.concat groups).
Proof.
  induction groups as [|g groups IH]; intros Hne; [reflexivity |].
  inversion Hne as [|? ? Hg Hgs]; subst.
  simpl. rewrite length_app. specialize (IH Hgs).
  destruct g; [congruence | simpl; lia].
Qed.

Lemma chunker_nil_iff (words : list wordEntry) (D : float) :
  groupWordsIntoChunks words D = [] <-> words = [].
Proof.
  destruct (groupWords_groups words D) as (groups & Hne & Hcat & Hout).
  split.
  - intros E. rewrite Hout in E. apply map_eq_nil in E. subst groups.
    now rewrite <- Hcat.
  - intros ->. reflexivity.
Qed.

(** X1.  The chunker returns no segment exactly for the empty word list: a
    non-empty word list always gives some transcript. *)
Theorem groupWords_nil_iff (words : list wordEntry) (D : float) :
  groupWordsIntoChunks words D = [] <-> words = [].
Proof. apply chunker_nil_iff. Qed.

(** X2.  The chunker never returns more segments than there are words. *)
Theorem groupWords_length_le (words : list wordEntry) (D : float) :
  length (groupWordsIntoChunks words D) <= length words.
Proof.
  destruct (groupWords_groups words D) as (groups & Hne & Hcat & Hout).
  rewrite Hout, length_map, <- Hcat. now apply groups_length_le.
Qed.

Lemma hd_app_nonempty {A} (l1 l2 : list A) (d : A) :
  l1 <> [] -> hd d (l1 ++ l2) = hd d l1.
Proof. destruct l1; [congruence | reflexivity]. Qed.

(** The state of the loop, with what made each chunk close. *)
Lemma chunk_fold_greedy D ws : forall st groups cur,
  chunk_inv st groups cur ->
  Forall (closes_at D) groups -> still_open D cur ->
  exists groups' cur',
    chunk_inv (fold_left (chunk_step D) ws st) groups' cur'
    /\ Forall (closes_at D) groups' /\ still_open D cur'
    /\ List.concat groups' ++ cur' = List.concat groups ++ cur ++ ws.
Proof.
  induction ws as [|w ws IH]; intros st groups cur Hinv Hclosed Hopen.
  - exists groups, cur. now rewrite app_nil_r.
  - assert (Hstep : exists g1 c1,
               chunk_inv (chunk_step D st w) g1 c1
               /\ Forall (closes_at D) g1 /\ still_open D c1
               /\ List.concat g1 ++ c1 = List.concat groups ++ cur ++ [w]).
    { destruct Hinv as (Hseg & Hne & Hchunk & Hcur).
      assert (Hstart : (if cs_started st then cs_chunkStart st else w_Start w)
                       = w_Start (hd wordEntry_zero (cur ++ [w]))).
      { destruct cur as [|w0 cur]; simpl.
        - now rewrite Hcur.
        - destruct Hcur as [-> ->]. reflexivity. }
      assert (Hprefix :
        Forall (fun w' => (D <=? w_End w'
                                 - w_Start (hd wordEntry_zero (cur ++ [w])))%float
                          = false) cur).
      { destruct cur as [|w0 cur]; [constructor |].
        rewrite hd_app_nonempty by discriminate. exact Hopen. }
      unfold chunk_step. rewrite Hstart.
      destruct (PrimFloat.leb D _) eqn:Hflush.
      - exists (groups ++ [cur ++ [w]]), []. repeat split; simpl.
        + rewrite Hseg, map_app. simpl. f_equal.
          unfold seg_of_group. rewrite List.last_last, map_app, Hchunk.
          reflexivity.
        + apply Forall_app. split; [assumption |].
          constructor; [destruct cur; discriminate | constructor].
        + apply Forall_app. split; [assumption |].
          constructor; [| constructor]. split.
          * now rewrite List.last_last.
          * now rewrite removelast_last.
        + constructor.
        + rewrite concat_app. simpl. now rewrite !app_nil_r.
      - exists groups, (cur ++ [w]). repeat split; simpl; try assumption.
        + now rewrite map_app, Hchunk.
        + destruct cur; simpl; split; reflexivity.
        + apply Forall_app. split; [exact Hprefix |].
          constructor; [exact Hflush | constructor]. }
    destruct Hstep as (g1 & c1 & H1 & Hc1 & Ho1 & E1).
    destruct (IH _ _ _ H1 Hc1 Ho1) as (g2 & c2 & H2 & Hc2 & Ho2 & E2).
    exists g2, c2.
    split; [exact H2 |]. split; [exact Hc2 |]. split; [exact Ho2 |].
    rewrite E2, app_assoc, E1. now rewrite <- !app_assoc.
Qed.

Lemma chunk_flush_groups words st groups cur :
  chunk_inv st groups cur ->
  List.concat groups ++ cur = words ->
  chunk_flush words st = segs_of_groups groups cur.
Proof.
  intros (Hseg & Hne & Hchunk & Hcur) Hw.
  unfold chunk_flush, segs_of_groups. rewrite Hchunk, length_map, Hseg.
  destruct cur as [|w0 cur].
  - simpl. now rewrite app_nil_r.
  - assert (Hlen : (0 <? length words)%nat = true).
    { apply Nat.ltb_lt. rewrite <- Hw, length_app. simpl. lia. }
    rewrite Hlen. simpl andb. cbv iota. f_equal. f_equal.
    unfold seg_of_group. destruct Hcur as [_ ->]. simpl hd.
    rewrite <- Hw, last_app_nonempty by discriminate. reflexivity.
Qed.

(** X3.  The chunker is greedy: it cuts the words into the groups that each
    reach the chunk duration at their last word and at no earlier word,
    followed by the words left, which reach it at no word; it emits the
    segment of each group and, when words are left, the segment of those. *)
Theorem groupWords_greedy (words : list wordEntry) (D : float) :
  exists groups cur,
    List.concat groups ++ cur = words
    /\ Forall (fun g => g <> []) groups
    /\ Forall (closes_at D) groups
    /\ still_open D cur
    /\ groupWordsIntoChunks words D = segs_of_groups groups cur.
Proof.
  destruct (chunk_fold_greedy D words chunkState_init [] [])
    as (groups & cur & Hinv & Hclosed & Hopen & Hw).
  - apply chunk_inv_init.
  - constructor.
  - constructor.
  - exists groups, cur. simpl in Hw. repeat split; try assumption.
    + apply Hinv.
    + unfold groupWordsIntoChunks. now apply chunk_flush_groups.
Qed.

(** X4.  Every segment but the last spans at least the chunk duration, and the
    last one too unless it is the flush of the words left at the end. *)
Theorem groupWords_spans (words : list wordEntry) (D : float) :
  exists closed rest,
    groupWordsIntoChunks words D = closed ++ rest
    /\ length rest <= 1
    /\ Forall (fun s => (D <=? seg_End s - seg_Start s)%float = true) closed
    /\ (rest <> [] <-> cs_chunk (chunk_loop D words) <> []).
Proof.
  destruct (chunk_fold_greedy D words chunkState_init [] [])
    as (groups & cur & Hinv & Hclosed & Hopen & Hw);
    [apply chunk_inv_init | constructor | constructor |].
  simpl in Hw.
  exists (map seg_of_group groups),
         (match cur with [] => [] | _ :: _ => [seg_of_group cur] end).
  split; [| split; [| split]].
  - unfold groupWordsIntoChunks. now apply chunk_flush_groups.
  - destruct cur; simpl; lia.
  - apply Forall_forall. intros s Hs.
    apply in_map_iff in Hs. destruct Hs as (g & <- & Hg).
    rewrite Forall_forall in Hclosed. apply (Hclosed g Hg).
  - destruct Hinv as (_ & _ & Hchunk & _).
    fold (chunk_loop D words) in Hchunk. rewrite Hchunk.
    destruct cur; simpl; split; congruence.
Qed.

(** Segments already emitted do not influence the rest of the loop. *)
Lemma chunk_fold_prefix D ws : forall pre segs chunk start started,
  fold_left (chunk_step D) ws (mkChunkState (pre ++ segs) chunk start started)
  = (let st := fold_left (chunk_step D) ws
                         (mkChunkState segs chunk start started) in
     mkChunkState (pre ++ cs_segments st) (cs_chunk st) (cs_chunkStart st)
                  (cs_started st)).
Proof.
  induction ws as [|w ws IH]; intros pre segs chunk start started.
  - reflexivity.
  - simpl fold_left. unfold chunk_step at 2 4. simpl.
    destruct (PrimFloat.leb D _).
    + rewrite <- app_assoc. apply IH.
    + apply IH.
Qed.

(** Before a chunk starts, the recorded start of the previous chunk is
    not read. *)
Lemma chunk_fold_fresh D ws segs start :
  ws <> [] ->
  fold_left (chunk_step D) ws (mkChunkState segs [] start false)
  = fold_left (chunk_step D) ws (mkChunkState segs [] 0%float false).
Proof. destruct ws as [|w ws]; [congruence | reflexivity]. Qed.

(** X5.  Chunking composes at a chunk boundary: when the loop over [a] ends
    with no open chunk, chunking [a ++ b] gives the segments of [a]
    followed by the segments of [b]. *)
Theorem groupWords_app_at_boundary (a b : list wordEntry) (D : float) :
  cs_chunk (chunk_loop D a) = [] ->
  groupWordsIntoChunks (a ++ b) D
  = groupWordsIntoChunks a D ++ groupWordsIntoChunks b D.
Proof.
  intros Hclosed.
  destruct b as [|w b].
  { rewrite !app_nil_r. reflexivity. }
  destruct (chunk_loop_inv D a) as (groups & cur & Hinv & Hw).
  assert (Ha : chunk_loop D a
               = mkChunkState (cs_segments (chunk_loop D a)) []
                              (cs_chunkStart (chunk_loop D a)) false).
  { destruct Hinv as (_ & _ & Hchunk & Hcur).
    rewrite Hclosed in Hchunk.
    destruct cur; [| discriminate].
    destruct (chunk_loop D a) as [segs chunk start started].
    simpl in *. now subst. }
  assert (Hga : groupWordsIntoChunks a D = cs_segments (chunk_loop D a)).
  { unfold groupWordsIntoChunks, chunk_flush. now rewrite Hclosed. }
  unfold groupWordsIntoChunks at 1. unfold chunk_loop.
  rewrite fold_left_app. fold (chunk_loop D a). rewrite Ha.
  rewrite chunk_fold_fresh by discriminate.
  rewrite <- (app_nil_r (cs_segments (chunk_loop D a))) at 1.
  rewrite chunk_fold_prefix. cbv zeta.
  fold chunkState_init. fold (chunk_loop D (w :: b)).
  rewrite Hga. unfold groupWordsIntoChunks, chunk_flush.
  cbn [cs_chunk cs_segments cs_chunkStart].
  rewrite last_app_nonempty by discriminate.
  rewrite length_app. cbn [length].
  replace (0 <? length a + S (length b))%nat with true
    by (symmetry; apply Nat.ltb_lt; lia).
  destruct (0 <? length (cs_chunk (chunk_loop D (w :: b))))%nat; simpl.
  - now rewrite app_assoc.
  - reflexivity.
Qed.

Lemma groupWords_app_witness :
  groupWordsIntoChunks (boundaryWords ++ afterBoundaryWords) 3.0%float
  = groupWordsIntoChunks boundaryWords 3.0%float
    ++ groupWordsIntoChunks afterBoundaryWords 3.0%float.
Proof.
  apply (groupWords_app_at_boundary boundaryWords afterBoundaryWords 3.0%float).
  vm_compute. reflexivity.
Defined.

(** ** The segmentation, whole *)

Lemma filter_nil_iff {A} (f : A -> bool) (l : list A) :
  List.filter f l = [] <-> forall x, In x l -> f x = false.
Proof.
  induction l as [|x l IH]; simpl.
  - split; [intros _ y [] | reflexivity].
  - destruct (f x) eqn:E; split.
    + discriminate.
    + intros Hall. specialize (Hall x (or_introl eq_refl)). congruence.
    + intros Hnil y [<- | Hy]; [exact E | now apply IH].
    + intros Hall. apply IH. intros y Hy. apply Hall. now right.
Qed.

Lemma fallback_when_blank (dgResp : deepgramResponse) :
  (forall u, In u (Utterances (Results dgResp)) -> nonBlank u = false) ->
  Segments (segmentResponse dgResp)
  = groupWordsIntoChunks (fallbackWords dgResp) 3.0%float.
Proof.
  intros Hblank. unfold segmentResponse. simpl Segments.
  rewrite utteranceSegments_spec.
  apply filter_nil_iff in Hblank. rewrite Hblank. simpl map.
  apply wordFallback_empty.
Qed.

(** X6.  When no utterance has a non-blank transcript, the result is the
    chunking, with the duration 3.0, of the words of the first alternative
    of the first channel; the other channels and alternatives are not
    read. *)
Theorem segmentResponse_fallback (dgResp : deepgramResponse) :
  (forall u, In u (Utterances (Results dgResp)) -> nonBlank u = false) ->
  Segments (segmentResponse dgResp)
  = groupWordsIntoChunks (fallbackWords dgResp) 3.0%float.
Proof. apply fallback_when_blank. Qed.

Lemma segmentResponse_fallback_witness :
  Segments (segmentResponse blankUtterancesResponse)
  = groupWordsIntoChunks (fallbackWords blankUtterancesResponse) 3.0%float.
Proof.
  apply (segmentResponse_fallback blankUtterancesResponse).
  intros u [<- | [<- | []]]; reflexivity.
Defined.

(** X7.  The transcript is empty exactly when no utterance has a non-blank
    transcript and the first alternative of the first channel has no
    word. *)
Theorem segmentResponse_nil_iff (dgResp : deepgramResponse) :
  Segments (segmentResponse dgResp) = []
  <-> (forall u, In u (Utterances (Results dgResp)) -> nonBlank u = false)
      /\ fallbackWords dgResp = [].
Proof.
  split.
  - intros Hnil.
    assert (Hblank : forall u, In u (Utterances (Results dgResp)) ->
                               nonBlank u = false).
    { apply filter_nil_iff.
      unfold segmentResponse in Hnil. simpl Segments in Hnil.
      rewrite utteranceSegments_spec in Hnil.
      destruct (List.filter nonBlank (Utterances (Results dgResp)))
        as [|u us]; [reflexivity |].
      rewrite wordFallback_nonempty in Hnil by discriminate.
      discriminate Hnil. }
    split; [exact Hblank |].
    rewrite (fallback_when_blank dgResp Hblank) in Hnil.
    now apply chunker_nil_iff in Hnil.
  - intros [Hblank Hwords].
    rewrite (fallback_when_blank dgResp Hblank), Hwords. reflexivity.
Qed.

(** ** [RunASR], whole *)

Section RunASRMore.
Context `{Platform}.
Variable deepgramBaseURL : string.

(** X8.  [RunASR] returns a result exactly when the URL is accepted, the
    provider answers with the status 200 and the body decodes; the result
    is then the segmentation of the decoded response. *)
Theorem RunASR_success_iff videoBytes apiKey w result :
  fst (RunASR deepgramBaseURL videoBytes apiKey w) = (Some result, None)
  <-> url_error (deepgramListenURL deepgramBaseURL) = None
      /\ exists resp dgResp,
           fst (http_Do (asrRequest deepgramBaseURL videoBytes apiKey) w)
           = inr resp
           /\ StatusCode resp = StatusOK
           /\ decode_deepgramResponse (resp_Body resp) = inr dgResp
           /\ result = segmentResponse dgResp.
Proof.
  destruct (url_error (deepgramListenURL deepgramBaseURL)) as [e|] eqn:Hurl.
  { split.
    - unfold RunASR, NewRequestWithContext. rewrite Hurl. discriminate.
    - intros [E _]. discriminate E. }
  rewrite RunASR_request by assumption. unfold bind, ret.
  destruct (http_Do (asrRequest deepgramBaseURL videoBytes apiKey) w)
    as [[err | resp] w'] eqn:Hdo; cbn [fst].
  { split; [discriminate |]. intros (_ & resp & dg & E & _). discriminate E. }
  destruct (Z.eqb_spec (StatusCode resp) StatusOK) as [Hst | Hst]; cbn [negb].
  - destruct (decode_deepgramResponse (resp_Body resp)) as [err | dg] eqn:Hdec;
      cbn [fst].
    + split; [discriminate |].
      intros (_ & resp' & dg & E & _ & Hdec' & _).
      injection E as <-. congruence.
    + split.
      * intros E. injection E as <-. split; [reflexivity |].
        exists resp, dg. auto.
      * intros (_ & resp' & dg' & E & _ & Hdec' & ->).
        injection E as E. subst resp'.
        rewrite Hdec in Hdec'. now injection Hdec' as <-.
  - cbn [fst]. split; [discriminate |].
    intros (_ & resp' & dg & E & Hst' & _). injection E as <-. contradiction.
Qed.

(** X9.  The errors of [RunASR] before and after the request: a refused URL
    sends no request and leaves the world as it is; a transport failure
    and a body that does not decode are reported with their cause; in
    each case no result is returned. *)
Theorem RunASR_error_messages videoBytes apiKey w :
  (forall err,
      url_error (deepgramListenURL deepgramBaseURL) = Some err ->
      RunASR deepgramBaseURL videoBytes apiKey w
      = ((None, Some ("create request: " +:+ err)), w))
  /\ (forall err w',
        url_error (deepgramListenURL deepgramBaseURL) = None ->
        http_Do (asrRequest deepgramBaseURL videoBytes apiKey) w
        = (inl err, w') ->
        RunASR deepgramBaseURL videoBytes apiKey w
        = ((None, Some ("deepgram request: " +:+ err)), w'))
  /\ (forall resp err w',
        url_error (deepgramListenURL deepgramBaseURL) = None ->
        http_Do (asrRequest deepgramBaseURL videoBytes apiKey) w
        = (inr resp, w') ->
        StatusCode resp = StatusOK ->
        decode_deepgramResponse (resp_Body resp) = inl err ->
        RunASR deepgramBaseURL videoBytes apiKey w
        = ((None, Some ("decode response: " +:+ err)), w')).
Proof.
  split; [| split].
  - intros err Hurl. unfold RunASR, NewRequestWithContext. now rewrite Hurl.
  - intros err w' Hurl Hdo. rewrite RunASR_request by assumption.
    unfold bind. now rewrite Hdo.
  - intros resp err w' Hurl Hdo Hst Hdec. rewrite RunASR_request by assumption.
    unfold bind. now rewrite Hdo, Hst, Hdec.
Qed.

(** X10.  [RunASR] returns a result or an error, never both and never neither. *)
Theorem RunASR_result_or_error videoBytes apiKey w :
  (exists result,
      fst (RunASR deepgramBaseURL videoBytes apiKey w) = (Some result, None))
  \/ (exists err,
        fst (RunASR deepgramBaseURL videoBytes apiKey w) = (None, Some err)).
Proof.
  unfold RunASR, NewRequestWithContext, bind, ret.
  destruct (url_error _); [right; eauto |].
  destruct (http_Do _ w) as [[err | resp] w']; [right; eauto |].
  destruct (negb _); [right; eauto |].
  destruct (decode_deepgramResponse _); [right | left]; eauto.
Qed.

End RunASRMore.

Lemma RunASR_error_messages_witness :
  @RunASR badURLPlatform "http://deepgram.test" "video" "key" serverErrorWorld
  = ((None, Some "create request: invalid control character in URL"),
     serverErrorWorld)
  /\ @RunASR scriptPlatform "http://deepgram.test" "video" "key"
             transportErrorWorld
     = ((None, Some "deepgram request: connection reset"),
        mkScriptWorld [] [])
  /\ @RunASR scriptPlatform "http://deepgram.test" "video" "key" garbageWorld
     = ((None, Some "decode response: invalid character"),
        mkScriptWorld [] []).
Proof.
  split; [| split].
  - apply (proj1 (@RunASR_error_messages badURLPlatform "http://deepgram.test"
                    "video" "key" serverErrorWorld)).
    reflexivity.
  - apply (proj1 (proj2 (@RunASR_error_messages scriptPlatform
                           "http://deepgram.test" "video" "key"
                           transportErrorWorld)));
      reflexivity.
  - apply (proj2 (proj2 (@RunASR_error_messages scriptPlatform
                           "http://deepgram.test" "video" "key"
                           garbageWorld))
             (mkResponse StatusOK (okBody "garbage")));
      reflexivity.
Defined.

(** ** [callGemini] and [RunVLM], whole *)

Section VLMMore.
Context `{Platform}.
Variable geminiBaseURL : string.

Lemma callGemini_shape apiKey imageBytes prompt w :
  match fst (callGemini geminiBaseURL apiKey imageBytes prompt w) with
  | (desc, Some _) => desc = ""
  | (desc, None) => trimmed desc
  end.
Proof.
  unfold callGemini, bind, ret.
  destruct (marshal_geminiRequest _); [reflexivity |].
  destruct (NewRequestWithContext _ _ _); [reflexivity |].
  destruct (http_Do _ w) as [[err | resp] w']; [reflexivity |].
  destruct (body_err (resp_Body resp)); [reflexivity |].
  destruct (negb _); [reflexivity |].
  destruct (unmarshal_geminiResponse _) as [err | gemResp]; [reflexivity |].
  destruct (gr_Error gemResp); [reflexivity |].
  destruct (Candidates gemResp) as [|c0 cs]; [reflexivity |].
  destruct (cand_Parts c0) as [|text texts]; [reflexivity |].
  apply TrimSpace_trimmed.
Qed.

(** X11.  Whatever the world answers, [callGemini] returns the empty description
    with an error, or a description without white space at either end
    with no error. *)
Theorem callGemini_description apiKey imageBytes prompt w :
  match fst (callGemini geminiBaseURL apiKey imageBytes prompt w) with
  | (desc, Some _) => desc = ""
  | (desc, None) => trimmed desc
  end.
Proof. apply callGemini_shape. Qed.

(** X12.  When the provider answers the request with the status 200, a
    body that is read and decodes, no error field and at least one
    candidate with at least one part, [callGemini] returns the trimmed
    text of the first part of the first candidate and no error; the other
    candidates and parts are not read. *)
Theorem callGemini_first_candidate apiKey imageBytes prompt bodyBytes w0 resp
        w1 gemResp c0 cs text texts :
  marshal_geminiRequest (geminiBody imageBytes prompt) = inr bodyBytes ->
  url_error (geminiGenerateURL geminiBaseURL apiKey) = None ->
  http_Do (geminiHTTPRequest geminiBaseURL apiKey bodyBytes) w0
  = (inr resp, w1) ->
  body_err (resp_Body resp) = None ->
  StatusCode resp = StatusOK ->
  unmarshal_geminiResponse (body_data (resp_Body resp)) = inr gemResp ->
  gr_Error gemResp = None ->
  Candidates gemResp = c0 :: cs ->
  cand_Parts c0 = text :: texts ->
  callGemini geminiBaseURL apiKey imageBytes prompt w0
  = ((TrimSpace text, None), w1).
Proof. apply callGemini_success. Qed.

(** X13.  When the request cannot be built (the body does not marshal or the
    URL is refused) [callGemini] fails without sending anything: the world
    is left as it is. *)
Theorem callGemini_before_request apiKey imageBytes prompt w :
  (forall err,
      marshal_geminiRequest (geminiBody imageBytes prompt) = inl err ->
      callGemini geminiBaseURL apiKey imageBytes prompt w
      = (("", Some ("marshal request: " +:+ err)), w))
  /\ (forall bodyBytes err,
        marshal_geminiRequest (geminiBody imageBytes prompt) = inr bodyBytes ->
        url_error (geminiGenerateURL geminiBaseURL apiKey) = Some err ->
        callGemini geminiBaseURL apiKey imageBytes prompt w
        = (("", Some ("create request: " +:+ err)), w)).
Proof.
  split.
  - intros err Hm. unfold callGemini. unfold geminiBody in Hm.
    now rewrite Hm.
  - intros bodyBytes err Hm Hurl.
    unfold callGemini, NewRequestWithContext. unfold geminiBody in Hm.
    now rewrite Hm, Hurl.
Qed.

Lemma vlm_loop_threaded apiKey rest : forall st w st' w',
  vlm_loop geminiBaseURL apiKey rest st w = (st', w') ->
  exists new,
    vs_calls st' = vs_calls st ++ new
    /\ threaded geminiBaseURL apiKey w rest new w'.
Proof.
  induction rest as [|kf rest IH]; intros st w st' w' Hloop.
  - injection Hloop as <- <-. exists []. now rewrite app_nil_r.
  - simpl in Hloop. unfold bind in Hloop.
    destruct (callGemini geminiBaseURL apiKey (kf_ImageBytes kf)
                (vlmPrompt (vs_prevDesc st) (kf_TimestampSec kf)) w)
      as [[desc err] w1] eqn:Hcall.
    rewrite (vlm_step_run _ _ _ _ _ _ _ _ Hcall) in Hloop. cbv zeta in Hloop.
    destruct (IH _ _ _ _ Hloop) as (new & Hcalls & Hthr).
    cbn [vs_calls] in Hcalls.
    exists (mkVlmCall w (vlmPrompt (vs_prevDesc st) (kf_TimestampSec kf))
                      desc err :: new).
    split; [now rewrite Hcalls, <- app_assoc |].
    cbn [threaded call_world call_prompt call_desc call_err].
    rewrite Hcall. cbn [fst snd]. auto.
Qed.

(** X14.  [RunVLM] is sequential: it calls [callGemini] exactly once per
    keyframe, in the order of the keyframes and with the image of the
    keyframe, each call in the world the previous call left, and it
    returns the world the last call left. *)
Theorem RunVLM_sequential keyframes apiKey w st' w' :
  vlm_loop geminiBaseURL apiKey keyframes vlmState_init w = (st', w') ->
  snd (RunVLM geminiBaseURL keyframes apiKey w) = w'
  /\ length (vs_calls st') = length keyframes
  /\ threaded geminiBaseURL apiKey w keyframes (vs_calls st') w'.
Proof.
  intros Hloop.
  split; [now rewrite (RunVLM_loop _ _ _ _ _ _ Hloop) |].
  split.
  - pose proof (vlm_loop_inv geminiBaseURL apiKey keyframes [] _ w st' w'
                  (vlm_inv_init geminiBaseURL apiKey) Hloop) as Hinv.
    apply Hinv.
  - destruct (vlm_loop_threaded _ _ _ _ _ _ Hloop) as (new & Hcalls & Hthr).
    simpl in Hcalls. now rewrite Hcalls.
Qed.

(** X15.  The description of a frame whose call succeeded is the text the call
    returned, which has no white space at either end, and the prompt of
    the next frame is built from it; the prompt of the first frame is
    built from the initial context. *)
Theorem RunVLM_chains_descriptions keyframes apiKey w st' w' :
  vlm_loop geminiBaseURL apiKey keyframes vlmState_init w = (st', w') ->
  (forall kf c,
      keyframes !! 0 = Some kf -> vs_calls st' !! 0 = Some c ->
      call_prompt c = vlmPrompt firstFrameContext (kf_TimestampSec kf))
  /\ forall i kf c,
       keyframes !! i = Some kf ->
       vs_calls st' !! i = Some c ->
       call_err c = None ->
       trimmed (call_desc c)
       /\ vs_frames st' !! i
          = Some (mkVLMFrame (kf_FrameIndex kf) (kf_TimestampSec kf)
                             (call_desc c))
       /\ forall kf' c',
            keyframes !! (S i) = Some kf' ->
            vs_calls st' !! (S i) = Some c' ->
            call_prompt c' = vlmPrompt (call_desc c) (kf_TimestampSec kf').
Proof.
  intros Hloop.
  pose proof (vlm_loop_inv geminiBaseURL apiKey keyframes [] _ w st' w'
                (vlm_inv_init geminiBaseURL apiKey) Hloop) as Hinv.
  simpl app in Hinv. destruct Hinv as (_ & _ & _ & Hall).
  split.
  - intros kf c Hkf Hc. now destruct (Hall 0 kf c Hkf Hc) as (-> & _).
  - intros i kf c Hkf Hc Hok.
    destruct (Hall i kf c Hkf Hc) as (_ & Hcall & Hframe).
    split; [| split].
    + pose proof (callGemini_shape apiKey (kf_ImageBytes kf) (call_prompt c)
                    (call_world c)) as Hshape.
      rewrite Hcall, Hok in Hshape. exact Hshape.
    + rewrite Hframe. unfold describe. now rewrite Hok.
    + intros kf' c' Hkf' Hc'.
      destruct (Hall (S i) kf' c' Hkf' Hc') as (-> & _).
      f_equal. rewrite (take_S_r _ _ _ Hc), lastOK_snoc. now rewrite Hok.
Qed.

(** X16.  When every call fails, every prompt is built from the initial context
    and every description is an error marker. *)
Theorem RunVLM_all_calls_fail keyframes apiKey w st' w' :
  vlm_loop geminiBaseURL apiKey keyframes vlmState_init w = (st', w') ->
  Forall (fun c => call_err c <> None) (vs_calls st') ->
  forall i kf c,
    keyframes !! i = Some kf ->
    vs_calls st' !! i = Some c ->
    call_prompt c = vlmPrompt firstFrameContext (kf_TimestampSec kf)
    /\ exists e,
         call_err c = Some e
         /\ vs_frames st' !! i
            = Some (mkVLMFrame (kf_FrameIndex kf) (kf_TimestampSec kf)
                               ("[Error: " +:+ e +:+ "]")).
Proof.
  intros Hloop Hfail i kf c Hkf Hc.
  pose proof (vlm_loop_inv geminiBaseURL apiKey keyframes [] _ w st' w'
                (vlm_inv_init geminiBaseURL apiKey) Hloop) as Hinv.
  simpl app in Hinv. destruct Hinv as (_ & _ & _ & Hall).
  destruct (Hall i kf c Hkf Hc) as (Hprompt & _ & Hframe).
  split.
  - rewrite Hprompt. f_equal. apply lastOK_all_failed.
    now apply Forall_take.
  - rewrite Forall_forall in Hfail.
    assert (Hin : In c (vs_calls st')).
    { apply list_elem_of_In. eapply list_elem_of_lookup_2. exact Hc. }
    specialize (Hfail c Hin).
    destruct (call_err c) as [e|] eqn:He; [| congruence].
    exists e. split; [reflexivity |].
    rewrite Hframe. unfold describe. now rewrite He.
Qed.

End VLMMore.

Lemma callGemini_first_candidate_witness :
  @callGemini scriptPlatform "http://gemini.test" "test-api-key" "fake-jpeg"
              "Describe this frame"
              (mkScriptWorld
                 [ inr (mkResponse StatusOK
                          (okBody "  A person holding a product.  ")) ] [])
  = (("A person holding a product.", None), mkScriptWorld [] []).
Proof.
  apply (@callGemini_first_candidate scriptPlatform "http://gemini.test"
           "test-api-key" "fake-jpeg" "Describe this frame" "{}"
           (mkScriptWorld
              [ inr (mkResponse StatusOK
                       (okBody "  A person holding a product.  ")) ] [])
           (mkResponse StatusOK (okBody "  A person holding a product.  "))
           (mkScriptWorld [] [])
           (mkGeminiResponse
              [ mkGeminiCandidate [ "  A person holding a product.  " ] ] None)
           (mkGeminiCandidate [ "  A person holding a product.  " ]) []
           "  A person holding a product.  " []);
    reflexivity.
Defined.

Lemma callGemini_before_request_witness :
  @callGemini noMarshalPlatform "http://gemini.test" "key" "img" "prompt"
              errorThenOKWorld
  = (("", Some "marshal request: unsupported value"), errorThenOKWorld)
  /\ @callGemini badURLPlatform "http://gemini.test" "key" "img" "prompt"
                 errorThenOKWorld
     = (("", Some "create request: invalid control character in URL"),
        errorThenOKWorld).
Proof.
  split.
  - apply (proj1 (@callGemini_before_request noMarshalPlatform
                    "http://gemini.test" "key" "img" "prompt"
                    errorThenOKWorld)).
    reflexivity.
  - apply (proj2 (@callGemini_before_request badURLPlatform
                    "http://gemini.test" "key" "img" "prompt"
                    errorThenOKWorld) "{}");
      reflexivity.
Defined.

Lemma RunVLM_sequential_witness :
  snd (@RunVLM scriptPlatform "http://gemini.test" twoKeyframes "key"
               twoDescriptionsWorld)
  = mkScriptWorld [] []
  /\ length (vs_calls (fst (scriptedLoop twoDescriptionsWorld)))
     = length twoKeyframes
  /\ @threaded scriptPlatform "http://gemini.test" "key" twoDescriptionsWorld
               twoKeyframes
               (vs_calls (fst (scriptedLoop twoDescriptionsWorld)))
               (mkScriptWorld [] []).
Proof.
  apply (@RunVLM_sequential scriptPlatform "http://gemini.test" twoKeyframes
           "key" twoDescriptionsWorld
           (fst (scriptedLoop twoDescriptionsWorld))
           (mkScriptWorld [] [])).
  reflexivity.
Defined.

Lemma RunVLM_chains_descriptions_witness :
  exists c',
    vs_calls (fst (scriptedLoop twoDescriptionsWorld)) !! 1 = Some c'
    /\ call_prompt c'
       = @vlmPrompt scriptPlatform "Frame one description" 1.5%float.
Proof.
  destruct (@RunVLM_chains_descriptions scriptPlatform "http://gemini.test"
              twoKeyframes "key" twoDescriptionsWorld
              (fst (scriptedLoop twoDescriptionsWorld))
              (mkScriptWorld [] []) eq_refl) as (_ & Hchain).
  destruct (Hchain 0 (mkKeyframeInput 0 0.0%float "img1")
              (@mkVlmCall scriptPlatform twoDescriptionsWorld
                 (@vlmPrompt scriptPlatform firstFrameContext 0.0%float)
                 "Frame one description" None)
              eq_refl eq_refl eq_refl) as (_ & _ & Hnext).
  eexists. split; [reflexivity |].
  exact (Hnext (mkKeyframeInput 3 1.5%float "img2") _ eq_refl eq_refl).
Defined.

Lemma RunVLM_all_calls_fail_witness :
  exists c,
    vs_calls (fst (scriptedLoop twoFailuresWorld)) !! 1 = Some c
    /\ call_prompt c = @vlmPrompt scriptPlatform firstFrameContext 1.5%float.
Proof.
  eexists. split; [reflexivity |].
  refine (proj1 (@RunVLM_all_calls_fail scriptPlatform "http://gemini.test"
                   twoKeyframes "key" twoFailuresWorld
                   (fst (scriptedLoop twoFailuresWorld))
                   (mkScriptWorld [] []) eq_refl _
                   1 (mkKeyframeInput 3 1.5%float "img2") _ eq_refl eq_refl)).
  repeat constructor; discriminate.
Defined.

(** ** The object-store client *)

Section R2Facts.
Context `{Platform}.

Lemma downloadImages_loop_app c pre rest : forall images w,
  downloadImages_loop c (pre ++ rest) images w
  = match downloadImages_loop c pre images w with
    | ((Some images1, None), w1) => downloadImages_loop c rest images1 w1
    | other => other
    end.
Proof.
  induction pre as [|m pre IH]; intros images w; [reflexivity |].
  simpl. unfold bind.
  destruct (s3_GetObject (bucket c) (km_R2Key m) w) as [[err | body] w1];
    [reflexivity |].
  destruct (body_err body); [reflexivity |].
  apply IH.
Qed.

Lemma downloadImages_loop_result c metas : forall images w,
  (exists images',
      fst (downloadImages_loop c metas images w) = (Some images', None)
      /\ forall key, is_Some (images' !! key)
                     <-> is_Some (images !! key)
                         \/ In key (map km_R2Key metas))
  \/ (exists err, fst (downloadImages_loop c metas images w) = (None, Some err)).
Proof.
  induction metas as [|m metas IH]; intros images w.
  - left. exists images. split; [reflexivity |]. simpl. tauto.
  - simpl downloadImages_loop. unfold bind.
    destruct (s3_GetObject (bucket c) (km_R2Key m) w) as [[err | body] w1];
      [right; eauto |].
    destruct (body_err body); [right; eauto |].
    destruct (IH (<[km_R2Key m := body_data body]> images) w1)
      as [(images' & E & Hdom) | Herr]; [left | right; exact Herr].
    exists images'. split; [exact E |].
    intros key. rewrite Hdom, lookup_insert_is_Some. simpl.
    destruct (decide (km_R2Key m = key)); tauto.
Qed.

(** X17.  [DownloadKeyframeImages] returns either a map that has an image for
    exactly the keys of the metadata entries, or no map and an error:
    never a partial map. *)
Theorem DownloadKeyframeImages_result c adID metas w :
  (exists images,
      fst (DownloadKeyframeImages c adID metas w) = (Some images, None)
      /\ forall key, is_Some (images !! key) <-> In key (map km_R2Key metas))
  \/ (exists err,
        fst (DownloadKeyframeImages c adID metas w) = (None, Some err)).
Proof.
  unfold DownloadKeyframeImages.
  destruct (downloadImages_loop_result c metas ∅ w)
    as [(images & E & Hdom) | Herr]; [left | right; exact Herr].
  exists images. split; [exact E |].
  intros key. rewrite Hdom, lookup_empty.
  split; [intros [[x Hx] | Hin]; [discriminate | exact Hin] | tauto].
Qed.

(** X18.  [DownloadKeyframeImages] stops at the first image it cannot get or
    read: the images downloaded before are dropped, the error names the
    key, and the entries after it are not asked for (the world is the one
    the failed download left). *)
Theorem DownloadKeyframeImages_first_failure c adID pre m post w images w1 :
  DownloadKeyframeImages c adID pre w = ((Some images, None), w1) ->
  (forall err w2,
      s3_GetObject (bucket c) (km_R2Key m) w1 = (inl err, w2) ->
      DownloadKeyframeImages c adID (pre ++ m :: post) w
      = ((None,
          Some ("download keyframe " +:+ km_R2Key m +:+ ": " +:+ err)),
         w2))
  /\ (forall body err w2,
        s3_GetObject (bucket c) (km_R2Key m) w1 = (inr body, w2) ->
        body_err body = Some err ->
        DownloadKeyframeImages c adID (pre ++ m :: post) w
        = ((None, Some ("read keyframe " +:+ km_R2Key m +:+ ": " +:+ err)),
           w2)).
Proof.
  unfold DownloadKeyframeImages. intros Hpre.
  split.
  - intros err w2 Hget. rewrite downloadImages_loop_app, Hpre.
    simpl. unfold bind. now rewrite Hget.
  - intros body err w2 Hget Hread. rewrite downloadImages_loop_app, Hpre.
    simpl. unfold bind. now rewrite Hget, Hread.
Qed.

(** X19.  [UploadJSON] writes nothing when the value does not marshal, and
    otherwise writes once, to the bucket of the client, under the given
    key and with the JSON content type; its error names what failed. *)
Theorem UploadJSON_outcome c key data w :
  (forall err,
      marshal_upload data = inl err ->
      UploadJSON c key data w = (Some ("marshal json: " +:+ err), w))
  /\ (forall body,
        marshal_upload data = inr body ->
        UploadJSON c key data w
        = (match fst (s3_PutObject (bucket c) key body "application/json" w)
           with
           | Some err => Some ("upload " +:+ key +:+ ": " +:+ err)
           | None => None
           end,
           snd (s3_PutObject (bucket c) key body "application/json" w))).
Proof.
  split.
  - intros err Hm. unfold UploadJSON. now rewrite Hm.
  - intros body Hm. unfold UploadJSON, bind. rewrite Hm.
    destruct (s3_PutObject _ _ _ _ w) as [[err|] w']; reflexivity.
Qed.

End R2Facts.

Lemma DownloadKeyframeImages_first_failure_witness :
  @DownloadKeyframeImages scriptPlatform (mkClient "entropy-frames") "ad1"
                          twoMetas firstImageOnlyWorld
  = ((None,
      Some "download keyframe ads/ad1/keyframes/1.jpg: NoSuchKey"),
     firstImageOnlyWorld).
Proof.
  apply (proj1 (@DownloadKeyframeImages_first_failure scriptPlatform
                  (mkClient "entropy-frames") "ad1"
                  [ mkKeyframeMeta 0 0 0.0%float 1.0%float
                                   "ads/ad1/keyframes/0.jpg" ]
                  (mkKeyframeMeta 1 75 2.5%float 0.8%float
                                  "ads/ad1/keyframes/1.jpg")
                  [] firstImageOnlyWorld
                  (<["ads/ad1/keyframes/0.jpg" := "jpeg0"]> ∅)
                  firstImageOnlyWorld eq_refl));
    reflexivity.
Defined.

Lemma UploadJSON_outcome_witness :
  @UploadJSON noMarshalPlatform (mkClient "entropy-frames")
              "ads/ad1/extraction/asr_results.json"
              (UploadASR (mkASRResult [])) noVideoWorld
  = (Some "marshal json: unsupported value", noVideoWorld)
  /\ @UploadJSON scriptPlatform (mkClient "entropy-frames")
                 "ads/ad1/extraction/asr_results.json"
                 (UploadASR (mkASRResult [])) noVideoWorld
     = (None, noVideoWorld).
Proof.
  split.
  - apply (proj1 (@UploadJSON_outcome noMarshalPlatform
                    (mkClient "entropy-frames")
                    "ads/ad1/extraction/asr_results.json"
                    (UploadASR (mkASRResult [])) noVideoWorld)).
    reflexivity.
  - apply (proj2 (@UploadJSON_outcome scriptPlatform
                    (mkClient "entropy-frames")
                    "ads/ad1/extraction/asr_results.json"
                    (UploadASR (mkASRResult [])) noVideoWorld) "{}").
    reflexivity.
Defined.

(** ** The request handler, whole *)

Section HandlerMore.
Context `{Platform}.

Lemma ServeHTTP_refused h req w :
  (hr_Method req <> "POST" ->
   ServeHTTP h req w
   = (HttpError "method not allowed" StatusMethodNotAllowed, w))
  /\ (forall err,
        hr_Method req = "POST" ->
        decode_extractRequest (hr_Body req) = inl err ->
        ServeHTTP h req w
        = (HttpError "invalid request body" StatusBadRequest, w))
  /\ (forall body,
        hr_Method req = "POST" ->
        decode_extractRequest (hr_Body req) = inr body ->
        AdID body = "" ->
        ServeHTTP h req w
        = (HttpError "ad_id is required" StatusBadRequest, w)).
Proof.
  split; [| split].
  - intros Hm. unfold ServeHTTP.
    destruct (String.eqb_spec (hr_Method req) "POST"); [contradiction |].
    reflexivity.
  - intros err Hm Hdec. unfold ServeHTTP.
    now rewrite Hm, String.eqb_refl, Hdec.
  - intros body Hm Hdec Hid. unfold ServeHTTP.
    now rewrite Hm, String.eqb_refl, Hdec, Hid.
Qed.


(** X21.  A request that is not a [POST], whose body does not decode or whose
    [ad_id] is empty is refused, in this order, with the status 405 or
    400; nothing is read from the object store (the world is left as it
    is) and no stream is launched. *)
Theorem ServeHTTP_rejects h req w :
  (hr_Method req <> "POST" ->
   ServeHTTP h req w
   = (HttpError "method not allowed" StatusMethodNotAllowed, w))
  /\ (forall err,
        hr_Method req = "POST" ->
        decode_extractRequest (hr_Body req) = inl err ->
        ServeHTTP h req w
        = (HttpError "invalid request body" StatusBadRequest, w))
  /\ (forall body,
        hr_Method req = "POST" ->
        decode_extractRequest (hr_Body req) = inr body ->
        AdID body = "" ->
        ServeHTTP h req w
        = (HttpError "ad_id is required" StatusBadRequest, w)).
Proof. apply ServeHTTP_refused. Qed.

Lemma ServeHTTP_dispatched_valid h req w log results launched w' :
  ServeHTTP h req w = (Dispatched log results launched, w') ->
  hr_Method req = "POST"
  /\ exists body,
       decode_extractRequest (hr_Body req) = inr body /\ AdID body <> "".
Proof.
  intros Hserve.
  destruct (String.eqb_spec (hr_Method req) "POST") as [Hm | Hm].
  - split; [exact Hm |].
    destruct (decode_extractRequest (hr_Body req)) as [err | body] eqn:Hdec.
    + rewrite (proj1 (proj2 (ServeHTTP_refused h req w)) err Hm Hdec) in Hserve.
      discriminate Hserve.
    + exists body. split; [reflexivity |]. intros Hid.
      rewrite (proj2 (proj2 (ServeHTTP_refused h req w)) body Hm Hdec Hid)
        in Hserve.
      discriminate Hserve.
  - rewrite (proj1 (ServeHTTP_refused h req w) Hm) in Hserve.
    discriminate Hserve.
Qed.

(** A dispatched request, in terms of the decisions for the two streams. *)
Lemma ServeHTTP_dispatch_shape h req w log results launched w' :
  ServeHTTP h req w = (Dispatched log results launched, w') ->
  exists body videoBytes keyframeInputs,
    decode_extractRequest (hr_Body req) = inr body
    /\ results = asrResults h ++ vlmResults h keyframeInputs
    /\ launched = asrLaunched h (AdID body) videoBytes
                  ++ vlmLaunched h (AdID body) keyframeInputs.
Proof.
  intros Hserve.
  destruct (ServeHTTP_dispatched_valid _ _ _ _ _ _ _ Hserve)
    as (Hm & body & Hdec & Hid).
  rewrite (ServeHTTP_accepted h req body w Hm Hdec Hid) in Hserve.
  destruct (DownloadVideo (r2 h) (AdID body) w) as [[v [err|]] w1];
    [discriminate Hserve |].
  destruct (DownloadKeyframeMetadata (r2 h) (AdID body) w1) as [km w2].
  cbv zeta in Hserve.
  match type of Hserve with
  | context [let (_, _) := ?m in _] => destruct m as [ki w3]
  end.
  injection Hserve as _ <- <- _.
  exists body, v, (fst ki). auto.
Qed.

(** X22.  Every dispatched request accounts for each stream exactly once: the
    stream is either launched or reported as skipped, and [ServeHTTP]
    itself reports nothing but skipped streams. *)
Theorem ServeHTTP_each_stream_once h req w log results launched w' :
  ServeHTTP h req w = (Dispatched log results launched, w') ->
  Permutation (map sr_Stream results ++ map goroutine_stream launched)
              ["asr"; "vlm"]
  /\ Forall (fun r => sr_Status r = "skipped") results.
Proof.
  intros Hserve.
  destruct (ServeHTTP_dispatch_shape _ _ _ _ _ _ _ Hserve)
    as (body & v & kfs & _ & -> & ->).
  unfold asrResults, asrLaunched, vlmResults, vlmLaunched.
  destruct (nonEmpty (DeepgramAPIKey (cfg h)));
    destruct (nonEmpty (GeminiAPIKey (cfg h)) && (0 <? length kfs)%nat);
    simpl; (split; [| repeat constructor]).
  - reflexivity.
  - apply perm_swap.
  - reflexivity.
  - reflexivity.
Qed.

(** X23.  The gates of the two streams.  The transcript stream is launched
    exactly when the Deepgram credential is configured.  The visual stream
    is launched only with the Gemini credential and at least one keyframe,
    and for the ad of the request; when it is skipped for lack of the
    credential, the credential is indeed missing. *)
Theorem ServeHTTP_gates h req w log results launched w' :
  ServeHTTP h req w = (Dispatched log results launched, w') ->
  ((exists adID videoBytes, In (GoRunASR adID videoBytes) launched)
   <-> DeepgramAPIKey (cfg h) <> "")
  /\ (In asrSkipped results <-> DeepgramAPIKey (cfg h) = "")
  /\ (forall adID keyframes,
        In (GoRunVLM adID keyframes) launched ->
        GeminiAPIKey (cfg h) <> "" /\ keyframes <> []
        /\ exists body,
             decode_extractRequest (hr_Body req) = inr body
             /\ adID = AdID body)
  /\ (In (vlmSkipped "GEMINI_API_KEY not configured") results ->
      GeminiAPIKey (cfg h) = "").
Proof.
  intros Hserve.
  destruct (ServeHTTP_dispatch_shape _ _ _ _ _ _ _ Hserve)
    as (body & v & kfs & Hdec & -> & ->).
  assert (Hd : nonEmpty (DeepgramAPIKey (cfg h)) = false
               <-> DeepgramAPIKey (cfg h) = "")
    by (destruct (DeepgramAPIKey (cfg h)); simpl; split; congruence).
  assert (Hg : nonEmpty (GeminiAPIKey (cfg h)) = false
               <-> GeminiAPIKey (cfg h) = "")
    by (destruct (GeminiAPIKey (cfg h)); simpl; split; congruence).
  split; [| split; [| split]].
  - unfold asrLaunched, vlmLaunched. split.
    + intros (adID & videoBytes & Hin) Hkey. apply Hd in Hkey.
      rewrite Hkey in Hin.
      destruct (_ && _); simpl in Hin; [| exact Hin].
      destruct Hin as [E | []]. discriminate E.
    + intros Hkey. exists (AdID body), v.
      destruct (nonEmpty (DeepgramAPIKey (cfg h))); [now left |].
      exfalso. apply Hkey, Hd. reflexivity.
  - unfold asrResults, vlmResults. split.
    + intros Hin. apply Hd.
      destruct (nonEmpty (DeepgramAPIKey (cfg h))); [| reflexivity].
      destruct (_ && _); simpl in Hin; [destruct Hin |].
      destruct Hin as [E | []]. discriminate E.
    + intros Hkey. apply Hd in Hkey. rewrite Hkey. now left.
  - intros adID keyframes Hin. unfold asrLaunched, vlmLaunched in Hin.
    apply in_app_or in Hin. destruct Hin as [Hin | Hin].
    { destruct (nonEmpty (DeepgramAPIKey (cfg h))); simpl in Hin;
        [destruct Hin as [E | []]; discriminate E | destruct Hin]. }
    destruct (nonEmpty (GeminiAPIKey (cfg h))) eqn:Eg; simpl in Hin;
      [| destruct Hin].
    destruct kfs as [|kf kfs]; simpl in Hin; [destruct Hin |].
    destruct Hin as [E | []]. injection E as <- <-.
    split; [| split; [discriminate | eauto]].
    intros Hkey. apply Hg in Hkey. congruence.
  - intros Hin. unfold asrResults, vlmResults in Hin.
    apply in_app_or in Hin. destruct Hin as [Hin | Hin].
    { destruct (nonEmpty (DeepgramAPIKey (cfg h))); simpl in Hin;
        [destruct Hin | destruct Hin as [E | []]; discriminate E]. }
    apply Hg.
    destruct (nonEmpty (GeminiAPIKey (cfg h))); [| reflexivity].
    destruct kfs as [|kf kfs]; simpl in Hin.
    + destruct Hin as [E | []]. discriminate E.
    + destruct Hin.
Qed.

End HandlerMore.

Section HandlerStreams.
Context `{Platform}.
Variable deepgramBaseURL : string.
Variable geminiBaseURL : string.

Lemma keyframeInputs_fold images metas : forall acc,
  (forall m, In m metas -> is_Some (images !! km_R2Key m)) ->
  fold_left (keyframeInputs_step images) metas acc
  = acc ++ map (keyframe_of_meta images) metas.
Proof.
  induction metas as [|m metas IH]; intros acc Hall.
  - simpl. now rewrite app_nil_r.
  - simpl fold_left. rewrite IH by (intros m' Hm'; apply Hall; now right).
    unfold keyframeInputs_step, keyframe_of_meta.
    destruct (Hall m (or_introl eq_refl)) as [img Himg].
    cbn [map]. rewrite Himg. cbn [default]. now rewrite <- app_assoc.
Qed.

(** X24.  When the video, the metadata and the images are downloaded, the
    keyframes handed to the visual stream are the metadata entries, one for
    one and in their order, each with its index, its timestamp and the
    image stored under its key; no warning is written. *)
Theorem ServeHTTP_keyframes h req body w videoBytes w1 metas w2 images w3 :
  hr_Method req = "POST" ->
  decode_extractRequest (hr_Body req) = inr body ->
  AdID body <> "" ->
  DownloadVideo (r2 h) (AdID body) w = ((videoBytes, None), w1) ->
  DownloadKeyframeMetadata (r2 h) (AdID body) w1 = ((Some metas, None), w2) ->
  DownloadKeyframeImages (r2 h) (AdID body) metas w2
  = ((Some images, None), w3) ->
  (forall m, In m metas -> is_Some (images !! km_R2Key m))
  /\ ServeHTTP h req w
     = (Dispatched []
          (asrResults h
           ++ vlmResults h (map (keyframe_of_meta images) metas))
          (asrLaunched h (AdID body) videoBytes
           ++ vlmLaunched h (AdID body)
                          (map (keyframe_of_meta images) metas)),
        w3).
Proof.
  intros Hm Hdec Hid Hvideo Hmeta Himg.
  assert (Hall : forall m, In m metas -> is_Some (images !! km_R2Key m)).
  { intros m Hin.
    destruct (downloadImages_loop_result (r2 h) metas ∅ w2)
      as [(images' & E & Hdom) | (err & E)];
      unfold DownloadKeyframeImages in Himg; rewrite Himg in E;
      [| discriminate E].
    injection E as <-. apply Hdom. right. now apply in_map. }
  split; [exact Hall |].
  rewrite (ServeHTTP_accepted h req body w Hm Hdec Hid), Hvideo, Hmeta.
  cbn [fst snd]. rewrite Himg. cbn [fst snd app].
  rewrite (keyframeInputs_fold images metas [] Hall). reflexivity.
Qed.

(** X25.  [runASR] uploads nothing when [RunASR] fails, and reports a success
    only when the transcript was stored under
    "ads/<ad>/extraction/asr_results.json", with the number of its
    segments. *)
Theorem runASR_outcome h adID videoBytes w :
  (forall r err w1,
      RunASR deepgramBaseURL videoBytes (DeepgramAPIKey (cfg h)) w
      = ((r, Some err), w1) ->
      runASR deepgramBaseURL h adID videoBytes w
      = (mkStreamResult "asr" "error" 0 "" err, w1))
  /\ (sr_Status (fst (runASR deepgramBaseURL h adID videoBytes w)) = "success" ->
      exists asrResult w1 w2,
        RunASR deepgramBaseURL videoBytes (DeepgramAPIKey (cfg h)) w
        = ((Some asrResult, None), w1)
        /\ UploadJSON (r2 h) ("ads/" +:+ adID +:+ "/extraction/asr_results.json")
                      (UploadASR asrResult) w1
           = (None, w2)
        /\ runASR deepgramBaseURL h adID videoBytes w
           = (mkStreamResult "asr" "success"
                (Z.of_nat (length (Segments asrResult)))
                ("ads/" +:+ adID +:+ "/extraction/asr_results.json") "",
              w2)).
Proof.
  split.
  - intros r err w1 Hrun. unfold runASR, bind. rewrite Hrun.
    destruct r; reflexivity.
  - unfold runASR, bind.
    destruct (RunASR deepgramBaseURL videoBytes (DeepgramAPIKey (cfg h)) w)
      as [[[asrResult|] [err|]] w1]; cbn [fst sr_Status];
      try discriminate.
    destruct (UploadJSON _ _ _ w1) as [[err|] w2] eqn:Hup;
      cbn [fst sr_Status]; [discriminate |].
    intros _. exists asrResult, w1, w2. auto.
Qed.

(** X26.  [runVLM] never reports an error of the visual stream itself: with one
    frame per keyframe in hand, its result depends on the upload alone,
    and a success counts the keyframes. *)
Theorem runVLM_outcome h adID keyframes w :
  exists vlmResult w1,
    RunVLM geminiBaseURL keyframes (GeminiAPIKey (cfg h)) w
    = ((Some vlmResult, None), w1)
    /\ length (Frames vlmResult) = length keyframes
    /\ runVLM geminiBaseURL h adID keyframes w
       = (match fst (UploadJSON (r2 h)
                       ("ads/" +:+ adID +:+ "/extraction/vlm_results.json")
                       (UploadVLM vlmResult) w1)
          with
          | Some err => mkStreamResult "vlm" "error" 0 "" err
          | None =>
              mkStreamResult "vlm" "success" (Z.of_nat (length keyframes))
                ("ads/" +:+ adID +:+ "/extraction/vlm_results.json") ""
          end,
          snd (UploadJSON (r2 h)
                 ("ads/" +:+ adID +:+ "/extraction/vlm_results.json")
                 (UploadVLM vlmResult) w1)).
Proof.
  destruct (vlm_loop geminiBaseURL (GeminiAPIKey (cfg h)) keyframes
              vlmState_init w) as [st' w1] eqn:Hloop.
  pose proof (RunVLM_loop geminiBaseURL _ _ _ _ _ Hloop) as Hrun.
  pose proof (vlm_loop_inv geminiBaseURL _ keyframes [] _ w st' w1
                (vlm_inv_init geminiBaseURL _) Hloop) as (Hlen & _).
  simpl in Hlen.
  exists (mkVLMResult (vs_frames st')), w1.
  split; [exact Hrun |]. split; [exact Hlen |].
  unfold runVLM, bind. rewrite Hrun.
  destruct (UploadJSON _ _ _ w1) as [[err|] w2]; cbn [fst snd Frames];
    [reflexivity |].
  now rewrite Hlen.
Qed.

(** X27.  The health endpoint and the handler agree: a stream that the health
    answer reports as configured is the transcript stream launched on
    every dispatched request, and a visual stream reported as not
    configured is never launched. *)
Theorem health_agrees_with_gates h req w log results launched w' :
  ServeHTTP h req w = (Dispatched log results launched, w') ->
  (health_deepgram (health (cfg h)) = true
   <-> exists adID videoBytes, In (GoRunASR adID videoBytes) launched)
  /\ (health_vlm (health (cfg h)) = false ->
      forall adID keyframes, ~ In (GoRunVLM adID keyframes) launched).
Proof.
  intros Hserve.
  destruct (ServeHTTP_dispatch_shape _ _ _ _ _ _ _ Hserve)
    as (body & v & kfs & _ & _ & ->).
  unfold health, asrLaunched, vlmLaunched. cbn [health_deepgram health_vlm].
  split.
  - destruct (nonEmpty (DeepgramAPIKey (cfg h))); split.
    + intros _. exists (AdID body), v. now left.
    + reflexivity.
    + discriminate.
    + intros (a & b & Hin). simpl in Hin.
      destruct (_ && _); simpl in Hin; [| destruct Hin].
      destruct Hin as [E | []]. discriminate E.
  - intros -> adID keyframes Hin. simpl in Hin. rewrite app_nil_r in Hin.
    destruct (nonEmpty (DeepgramAPIKey (cfg h))); simpl in Hin;
      [destruct Hin as [E | []]; discriminate E | destruct Hin].
Qed.

End HandlerStreams.

(** ** The configuration *)

Lemma getenv_cases (env : gmap string string) (key fallback : string) :
  (env !! key = None \/ env !! key = Some "") /\ getenv env key fallback = fallback
  \/ exists v, env !! key = Some v /\ v <> "" /\ getenv env key fallback = v.
Proof.
  unfold getenv, os_Getenv.
  destruct (env !! key) as [v|]; simpl.
  - destruct v as [|c v]; simpl; [left; auto |].
    right. exists (String c v). repeat split. discriminate.
  - left. auto.
Qed.

(** X28.  A variable set to the empty string counts as not set: [Load] gives a
    credential exactly when its variable is set to a non-empty value, and
    that value; the bucket and the port are never empty. *)
Theorem Load_credentials_and_defaults (env : gmap string string) :
  (DeepgramAPIKey (Load env) = ""
   <-> env !! "DEEPGRAM_API_KEY" = None \/ env !! "DEEPGRAM_API_KEY" = Some "")
  /\ (GeminiAPIKey (Load env) = ""
      <-> env !! "GEMINI_API_KEY" = None \/ env !! "GEMINI_API_KEY" = Some "")
  /\ (forall v, env !! "DEEPGRAM_API_KEY" = Some v ->
                v <> "" -> DeepgramAPIKey (Load env) = v)
  /\ (forall v, env !! "GEMINI_API_KEY" = Some v ->
                v <> "" -> GeminiAPIKey (Load env) = v)
  /\ R2Bucket (Load env) <> ""
  /\ Port (Load env) <> "".
Proof.
  unfold Load. cbn [DeepgramAPIKey GeminiAPIKey R2Bucket Port].
  repeat split.
  - intros E.
    destruct (getenv_cases env "DEEPGRAM_API_KEY" "")
      as [[Hunset _] | (v & Hv & Hne & Hget)]; [exact Hunset | congruence].
  - intros Hunset.
    destruct (getenv_cases env "DEEPGRAM_API_KEY" "")
      as [[_ Hget] | (v & Hv & Hne & Hget)]; [exact Hget |].
    destruct Hunset; congruence.
  - intros E.
    destruct (getenv_cases env "GEMINI_API_KEY" "")
      as [[Hunset _] | (v & Hv & Hne & Hget)]; [exact Hunset | congruence].
  - intros Hunset.
    destruct (getenv_cases env "GEMINI_API_KEY" "")
      as [[_ Hget] | (v & Hv & Hne & Hget)]; [exact Hget |].
    destruct Hunset; congruence.
  - intros v Hv Hne.
    destruct (getenv_cases env "DEEPGRAM_API_KEY" "")
      as [[[Hu | Hu] _] | (v' & Hv' & _ & Hget)]; congruence.
  - intros v Hv Hne.
    destruct (getenv_cases env "GEMINI_API_KEY" "")
      as [[[Hu | Hu] _] | (v' & Hv' & _ & Hget)]; congruence.
  - destruct (getenv_cases env "R2_BUCKET" "entropy-frames")
      as [[_ Hget] | (v & _ & Hne & Hget)]; rewrite Hget;
      [discriminate | exact Hne].
  - destruct (getenv_cases env "PORT" "8080")
      as [[_ Hget] | (v & _ & Hne & Hget)]; rewrite Hget;
      [discriminate | exact Hne].
Qed.

(** X29.  With [DEEPGRAM_API_KEY] not set, or set to the empty string, the
    handler that [main] mounts skips the transcript stream on every
    dispatched request and launches no transcript goroutine, and the
    health answer reports Deepgram as not configured. *)
Theorem main_without_deepgram_key `{Platform}
        (env : gmap string string) req w log results launched w' :
  env !! "DEEPGRAM_API_KEY" = None \/ env !! "DEEPGRAM_API_KEY" = Some "" ->
  ServeHTTP (mainHandler env) req w = (Dispatched log results launched, w') ->
  In asrSkipped results
  /\ (forall adID videoBytes, ~ In (GoRunASR adID videoBytes) launched)
  /\ health_deepgram (health (Load env)) = false.
Proof.
  intros Hunset Hserve.
  assert (Hkey : DeepgramAPIKey (cfg (mainHandler env)) = "").
  { destruct (getenv_cases env "DEEPGRAM_API_KEY" "")
      as [[_ Hget] | (v & Hv & Hne & _)]; [exact Hget |].
    destruct Hunset; congruence. }
  destruct (ServeHTTP_dispatch_shape _ _ _ _ _ _ _ Hserve)
    as (body & v & kfs & _ & -> & ->).
  unfold asrResults, asrLaunched, vlmLaunched. rewrite Hkey. simpl nonEmpty.
  cbv iota. split; [now left |]. split.
  - intros adID videoBytes Hin. simpl in Hin.
    destruct (_ && _); simpl in Hin; [| exact Hin].
    destruct Hin as [E | []]. discriminate E.
  - unfold health. cbn [health_deepgram].
    change (DeepgramAPIKey (Load env))
      with (DeepgramAPIKey (cfg (mainHandler env))).
    now rewrite Hkey.
Qed.

(** ** Listing the keyframes *)

Lemma length_append (a b : string) :
  String.length (a +:+ b) = String.length a + String.length b.
Proof.
  induction a as [|x a IH]; [reflexivity |].
  rewrite append_cons. simpl. now rewrite IH.
Qed.

Lemma substring_whole (s : string) : substring 0 (String.length s) s = s.
Proof. induction s as [|x s IH]; simpl; [reflexivity | now rewrite IH]. Qed.

Lemma substring_after (p suffix : string) :
  substring (String.length p) (String.length suffix) (p +:+ suffix) = suffix.
Proof.
  induction p as [|x p IH]; [apply substring_whole |].
  rewrite append_cons. simpl. exact IH.
Qed.

Lemma substring_split (s : string) : forall k,
  k <= String.length s ->
  s = substring 0 k s +:+ substring k (String.length s - k) s.
Proof.
  induction s as [|x s IH]; intros k Hk.
  - simpl in Hk. replace k with 0 by lia. reflexivity.
  - destruct k as [|k].
    + simpl. now rewrite substring_whole.
    + simpl in Hk. simpl. rewrite append_cons. f_equal. apply IH. lia.
Qed.

(** [HasSuffix s suffix] holds exactly when [s] ends with [suffix]. *)
Lemma HasSuffix_spec (s suffix : string) :
  HasSuffix s suffix = true <-> exists p, s = p +:+ suffix.
Proof.
  unfold HasSuffix. rewrite andb_true_iff, Nat.leb_le, String.eqb_eq. split.
  - intros [Hlen Hsub].
    exists (substring 0 (String.length s - String.length suffix) s).
    pose proof (substring_split s (String.length s - String.length suffix))
      as E.
    replace (String.length s - (String.length s - String.length suffix))
      with (String.length suffix) in E by lia.
    rewrite Hsub in E. apply E. lia.
  - intros [p ->]. rewrite length_append. split; [lia |].
    replace (String.length p + String.length suffix - String.length suffix)
      with (String.length p) by lia.
    apply substring_after.
Qed.

Lemma listKeys_fold (contents : list string) : forall keys,
  fold_left listKeys_step contents keys
  = keys ++ List.filter (fun key => HasSuffix key ".jpg") contents.
Proof.
  induction contents as [|key contents IH]; intros keys; simpl.
  - now rewrite app_nil_r.
  - rewrite IH. unfold listKeys_step.
    destruct (HasSuffix key ".jpg"); [now rewrite <- app_assoc | reflexivity].
Qed.

Section ListKeysFacts.
Context `{Platform}.
Variable s3_ListObjectsV2 :
  string -> string -> World -> (error + list string) * World.

(** X20.  [ListKeyframeKeys] asks once for the keys under
    "ads/<ad>/keyframes/".  When the listing fails it returns no key and
    the error; otherwise it returns, in increasing order, exactly the
    listed keys that end in ".jpg", each as many times as it is listed. *)
Theorem ListKeyframeKeys_result (c : Client) (adID : string) (w : World) :
  match s3_ListObjectsV2 (bucket c) ("ads/" +:+ adID +:+ "/keyframes/") w with
  | (inl err, w') =>
      ListKeyframeKeys s3_ListObjectsV2 c adID w
      = (([], Some ("list keyframes: " +:+ err)), w')
  | (inr contents, w') =>
      exists keys,
        ListKeyframeKeys s3_ListObjectsV2 c adID w = ((keys, None), w')
        /\ StronglySorted String.le keys
        /\ Permutation keys
                       (List.filter (fun key => HasSuffix key ".jpg") contents)
        /\ forall key,
             In key keys
             <-> In key contents /\ exists p, key = p +:+ ".jpg"
  end.
Proof.
  unfold ListKeyframeKeys, bind, ret.
  destruct (s3_ListObjectsV2 _ _ w) as [[err | contents] w']; [reflexivity |].
  rewrite listKeys_fold. simpl app.
  eexists. split; [reflexivity |].
  split; [apply StronglySorted_merge_sort; apply _ |].
  split; [apply merge_sort_Permutation |].
  intros key. unfold sort_Strings.
  rewrite <- !list_elem_of_In, merge_sort_Permutation, !list_elem_of_In.
  rewrite filter_In, HasSuffix_spec. reflexivity.
Qed.

End ListKeysFacts.

Example ListKeyframeKeys_sorted_jpg :
  fst (@ListKeyframeKeys scriptPlatform scriptList
         (mkClient "entropy-frames") "ad1" keyframesWorld)
  = ([ "ads/ad1/keyframes/0.jpg"; "ads/ad1/keyframes/1.jpg" ], None).
Proof. vm_compute. reflexivity. Qed.

(** ** The further properties on the scripted world *)

Lemma ServeHTTP_rejects_witness :
  @ServeHTTP scriptPlatform bothKeysHandler getRequest allPresentWorld
  = (HttpError "method not allowed" StatusMethodNotAllowed, allPresentWorld)
  /\ @ServeHTTP scriptPlatform bothKeysHandler noAdRequest allPresentWorld
     = (HttpError "ad_id is required" StatusBadRequest, allPresentWorld).
Proof.
  split.
  - apply (proj1 (@ServeHTTP_rejects scriptPlatform bothKeysHandler getRequest
                    allPresentWorld)).
    discriminate.
  - apply (proj2 (proj2 (@ServeHTTP_rejects scriptPlatform bothKeysHandler
                           noAdRequest allPresentWorld))
             (mkExtractRequest ""));
      reflexivity.
Defined.

Lemma ServeHTTP_each_stream_once_witness :
  Permutation
    (map sr_Stream [vlmSkippedNoImages]
     ++ map goroutine_stream [GoRunASR "ad1" "video"])
    ["asr"; "vlm"]
  /\ Forall (fun r => sr_Status r = "skipped") [vlmSkippedNoImages].
Proof.
  apply (@ServeHTTP_each_stream_once scriptPlatform bothKeysHandler ad1Request
           noMetadataWorld
           ["WARN: no keyframe metadata for ad1: download metadata ads/ad1/keyframes/metadata.json: NoSuchKey (VLM will be skipped)"]
           [vlmSkippedNoImages] [GoRunASR "ad1" "video"] noMetadataWorld).
  reflexivity.
Defined.

Lemma ServeHTTP_gates_witness :
  (exists adID videoBytes,
      In (GoRunASR adID videoBytes)
         [ GoRunASR "ad1" "video";
           GoRunVLM "ad1" [ mkKeyframeInput 0 0.0%float "jpeg" ] ])
  <-> DeepgramAPIKey (cfg bothKeysHandler) <> "".
Proof.
  apply (@ServeHTTP_gates scriptPlatform bothKeysHandler ad1Request
           allPresentWorld [] []
           [ GoRunASR "ad1" "video";
             GoRunVLM "ad1" [ mkKeyframeInput 0 0.0%float "jpeg" ] ]
           allPresentWorld).
  vm_compute. reflexivity.
Defined.

Lemma ServeHTTP_keyframes_witness :
  @ServeHTTP scriptPlatform bothKeysHandler ad1Request allPresentWorld
  = (Dispatched [] []
       [ GoRunASR "ad1" "video";
         GoRunVLM "ad1" [ mkKeyframeInput 0 0.0%float "jpeg" ] ],
     allPresentWorld).
Proof.
  refine (proj2 (@ServeHTTP_keyframes scriptPlatform bothKeysHandler
                   ad1Request (mkExtractRequest "ad1") allPresentWorld "video"
                   allPresentWorld
                   [ mkKeyframeMeta 0 0 0.0%float 1.0%float
                                    "ads/ad1/keyframes/0.jpg" ]
                   allPresentWorld
                   (<["ads/ad1/keyframes/0.jpg" := "jpeg"]> ∅) allPresentWorld
                   eq_refl eq_refl _ eq_refl eq_refl eq_refl)).
  discriminate.
Defined.

Lemma runASR_outcome_witness :
  @runASR scriptPlatform "http://deepgram.test" bothKeysHandler "ad1" "video"
          serverErrorWorld
  = (mkStreamResult "asr" "error" 0 ""
                    "deepgram returned 500: internal error",
     mkScriptWorld [] [])
  /\ exists asrResult w1 w2,
       @RunASR scriptPlatform "http://deepgram.test" "video" "dg-key"
               (mkScriptWorld
                  [ inr (mkResponse StatusOK (okBody "utterances")) ] [])
       = ((Some asrResult, None), w1)
       /\ @UploadJSON scriptPlatform (mkClient "entropy-frames")
                      "ads/ad1/extraction/asr_results.json"
                      (UploadASR asrResult) w1
          = (None, w2)
       /\ @runASR scriptPlatform "http://deepgram.test" bothKeysHandler "ad1"
                  "video"
                  (mkScriptWorld
                     [ inr (mkResponse StatusOK (okBody "utterances")) ] [])
          = (mkStreamResult "asr" "success"
               (Z.of_nat (length (Segments asrResult)))
               "ads/ad1/extraction/asr_results.json" "",
             w2).
Proof.
  split.
  - apply (proj1 (@runASR_outcome scriptPlatform "http://deepgram.test"
                    bothKeysHandler "ad1" "video" serverErrorWorld) None).
    reflexivity.
  - apply (proj2 (@runASR_outcome scriptPlatform "http://deepgram.test"
                    bothKeysHandler "ad1" "video"
                    (mkScriptWorld
                       [ inr (mkResponse StatusOK (okBody "utterances")) ]
                       []))).
    reflexivity.
Defined.

Lemma health_agrees_with_gates_witness :
  health_deepgram (health (cfg bothKeysHandler)) = true
  <-> exists adID videoBytes,
        In (GoRunASR adID videoBytes) [GoRunASR "ad1" "video"].
Proof.
  apply (@health_agrees_with_gates scriptPlatform bothKeysHandler ad1Request
           noMetadataWorld
           ["WARN: no keyframe metadata for ad1: download metadata ads/ad1/keyframes/metadata.json: NoSuchKey (VLM will be skipped)"]
           [vlmSkippedNoImages] [GoRunASR "ad1" "video"] noMetadataWorld).
  reflexivity.
Defined.

Lemma main_without_deepgram_key_witness :
  In asrSkipped [asrSkipped; vlmSkippedNoImages]
  /\ (forall adID videoBytes, ~ In (GoRunASR adID videoBytes) [])
  /\ health_deepgram (health (Load emptyDeepgramEnv)) = false.
Proof.
  apply (@main_without_deepgram_key scriptPlatform emptyDeepgramEnv ad1Request
           noMetadataWorld
           ["WARN: no keyframe metadata for ad1: download metadata ads/ad1/keyframes/metadata.json: NoSuchKey (VLM will be skipped)"]
           [asrSkipped; vlmSkippedNoImages] [] noMetadataWorld).
  - right. reflexivity.
  - vm_compute. reflexivity.
Defined.

(** ** Failures of single frames *)

Section FailedFrames.
Context `{Platform}.
Variable geminiBaseURL : string.

(** C1 (as amended).  Every failure of the provider that the code
    recognises (transport error, read error, status other than 200,
    malformed body, error field, no candidate or no content part) is an
    error of [callGemini].  Whatever the calls return, [RunVLM] returns a
    result and no error, with one frame per keyframe; it makes exactly one
    call of [callGemini] per keyframe, in order and each in the world the
    call before left, whether or not an earlier call failed; the prompt of
    every frame is built from the description of the most recent
    successful call before it, or from the initial context when there is
    none; and the frame of a call carries the index and the timestamp of
    its keyframe and the text the call returned or, when the call returned
    an error [e], the description "[Error: e]".  After a failed call the
    carried context is unchanged, so the prompt of the next frame is built
    from the description of the last successful call before the failed
    one, never from the error text. *)
Theorem C1_failed_frame_is_contained
        (keyframes : list KeyframeInput) (apiKey : string) (w : World)
        (st' : vlmState) (w' : World) :
  (forall imageBytes prompt bodyBytes w0 ans w1 reason,
      marshal_geminiRequest (geminiBody imageBytes prompt) = inr bodyBytes ->
      url_error (geminiGenerateURL geminiBaseURL apiKey) = None ->
      http_Do (geminiHTTPRequest geminiBaseURL apiKey bodyBytes) w0
      = (ans, w1) ->
      providerFailure ans reason ->
      callGemini geminiBaseURL apiKey imageBytes prompt w0
      = (("", Some reason), w1))
  /\ (forall calls,
        Forall (fun c => call_err c <> None) calls ->
        lastOK calls = firstFrameContext)
  /\ (forall before c after,
        call_err c = None ->
        Forall (fun c' => call_err c' <> None) after ->
        lastOK (before ++ c :: after) = call_desc c)
  /\ (vlm_loop geminiBaseURL apiKey keyframes vlmState_init w = (st', w') ->
      RunVLM geminiBaseURL keyframes apiKey w
      = ((Some (mkVLMResult (vs_frames st')), None), w')
      /\ length (vs_frames st') = length keyframes
      /\ length (vs_calls st') = length keyframes
      /\ threaded geminiBaseURL apiKey w keyframes (vs_calls st') w'
      /\ forall i kf,
           keyframes !! i = Some kf ->
           exists c,
             vs_calls st' !! i = Some c
             /\ call_prompt c
                = vlmPrompt (lastOK (take i (vs_calls st')))
                            (kf_TimestampSec kf)
             /\ fst (callGemini geminiBaseURL apiKey (kf_ImageBytes kf)
                                (call_prompt c) (call_world c))
                = (call_desc c, call_err c)
             /\ vs_frames st' !! i
                = Some (mkVLMFrame (kf_FrameIndex kf) (kf_TimestampSec kf)
                                   (match call_err c with
                                    | Some e => "[Error: " +:+ e +:+ "]"
                                    | None => call_desc c
                                    end))
             /\ lastOK (take (S i) (vs_calls st'))
                = match call_err c with
                  | Some _ => lastOK (take i (vs_calls st'))
                  | None => call_desc c
                  end
             /\ forall e kf',
                  call_err c = Some e ->
                  keyframes !! (S i) = Some kf' ->
                  exists c',
                    vs_calls st' !! (S i) = Some c'
                    /\ call_prompt c'
                       = vlmPrompt (lastOK (take i (vs_calls st')))
                                   (kf_TimestampSec kf')).
Proof.
  split; [intros; eapply callGemini_failure; eassumption |].
  split; [exact lastOK_all_failed |].
  split; [intros before c after; apply lastOK_last_success |].
  intros Hloop.
  split; [now apply RunVLM_loop |].
  pose proof (vlm_loop_inv geminiBaseURL apiKey keyframes [] _ w st' w'
                (vlm_inv_init geminiBaseURL apiKey) Hloop) as Hinv.
  simpl app in Hinv. destruct Hinv as (Hlf & Hlc & _ & Hall).
  split; [exact Hlf |]. split; [exact Hlc |].
  split.
  { destruct (vlm_loop_threaded _ _ _ _ _ _ _ Hloop) as (new & Hcalls & Hthr).
    simpl in Hcalls. now rewrite Hcalls. }
  assert (Hcall : forall i kf, keyframes !! i = Some kf ->
                               exists c, vs_calls st' !! i = Some c).
  { intros i kf Hkf. apply lookup_lt_is_Some_2. rewrite Hlc.
    eapply lookup_lt_Some. exact Hkf. }
  assert (Hnext : forall i c, vs_calls st' !! i = Some c ->
            lastOK (take (S i) (vs_calls st'))
            = match call_err c with
              | Some _ => lastOK (take i (vs_calls st'))
              | None => call_desc c
              end).
  { intros i c Hc. now rewrite (take_S_r _ _ _ Hc), lastOK_snoc. }
  intros i kf Hkf.
  destruct (Hcall i kf Hkf) as [c Hc].
  destruct (Hall i kf c Hkf Hc) as (Hprompt & Hgem & Hframe).
  exists c.
  split; [exact Hc |]. split; [exact Hprompt |]. split; [exact Hgem |].
  split; [exact Hframe |]. split; [now apply Hnext |].
  intros e kf' He Hkf'.
  destruct (Hcall (S i) kf' Hkf') as [c' Hc'].
  destruct (Hall (S i) kf' c' Hkf' Hc') as (Hprompt' & _).
  exists c'. split; [exact Hc' |].
  rewrite Hprompt', (Hnext i c Hc), He. reflexivity.
Qed.

End FailedFrames.

Lemma C1_witness :
  @RunVLM scriptPlatform "http://gemini.test" twoKeyframes "key"
          errorThenOKWorld
  = ((Some (mkVLMResult (vs_frames (fst (scriptedLoop errorThenOKWorld)))),
      None),
     mkScriptWorld [] [])
  /\ length (vs_calls (fst (scriptedLoop errorThenOKWorld)))
     = length twoKeyframes
  /\ (exists c,
        vs_calls (fst (scriptedLoop errorThenOKWorld)) !! 0 = Some c
        /\ call_err c = Some "gemini returned 500: server error"
        /\ vs_frames (fst (scriptedLoop errorThenOKWorld)) !! 0
           = Some (mkVLMFrame 0 0.0%float
                              "[Error: gemini returned 500: server error]"))
  /\ (exists c',
        vs_calls (fst (scriptedLoop errorThenOKWorld)) !! 1 = Some c'
        /\ call_prompt c'
           = @vlmPrompt scriptPlatform firstFrameContext 1.5%float
        /\ vs_frames (fst (scriptedLoop errorThenOKWorld)) !! 1
           = Some (mkVLMFrame 3 1.5%float "Second frame OK")).
Proof.
  destruct (@C1_failed_frame_is_contained scriptPlatform "http://gemini.test"
              twoKeyframes "key" errorThenOKWorld
              (fst (scriptedLoop errorThenOKWorld)) (mkScriptWorld [] []))
    as (_ & _ & _ & Hloop).
  destruct (Hloop eq_refl) as (Hrun & _ & Hcalls & _ & Hall).
  split; [exact Hrun |]. split; [exact Hcalls |].
  destruct (Hall 0 (mkKeyframeInput 0 0.0%float "img1") eq_refl)
    as (c & Hc & _ & _ & Hframe & _ & Hnext).
  assert (Herr : call_err c = Some "gemini returned 500: server error").
  { vm_compute in Hc. injection Hc as <-. reflexivity. }
  split.
  - exists c. split; [exact Hc |]. split; [exact Herr |].
    rewrite Hframe, Herr. reflexivity.
  - destruct (Hnext "gemini returned 500: server error"
                    (mkKeyframeInput 3 1.5%float "img2") Herr eq_refl)
      as (c' & Hc' & Hprompt).
    exists c'. split; [exact Hc' |]. split; [exact Hprompt |].
    vm_compute in Hc'. injection Hc' as <-. reflexivity.
Defined.

(** C1, as stated, counts an empty generated content among the failures.
    An answer with the status 200 whose text is made of white space is no
    failure for [callGemini]: the frame gets the empty description, with
    no error marker, and the prompt of the next frame is built from that
    empty description, not from the last non-empty one. *)
Lemma C1_blank_text_is_not_a_failure :
  fst (@RunVLM scriptPlatform "http://gemini.test" threeKeyframes "key"
               blankSecondWorld)
  = (Some (mkVLMResult
             [ mkVLMFrame 0 0.0%float "Frame one description";
               mkVLMFrame 1 2.5%float "";
               mkVLMFrame 2 5.0%float "Frame three" ]),
     None)
  /\ map call_err
         (vs_calls (fst (@vlm_loop scriptPlatform "http://gemini.test" "key"
                           threeKeyframes (@vlmState_init scriptPlatform)
                           blankSecondWorld)))
     = [ None; None; None ]
  /\ map call_prompt
         (vs_calls (fst (@vlm_loop scriptPlatform "http://gemini.test" "key"
                           threeKeyframes (@vlmState_init scriptPlatform)
                           blankSecondWorld)))
     = [ @vlmPrompt scriptPlatform firstFrameContext 0.0%float;
         @vlmPrompt scriptPlatform "Frame one description" 2.5%float;
         @vlmPrompt scriptPlatform "" 5.0%float ].
Proof. vm_compute. repeat split. Qed.
